(** * daily-clanker: the static site builder [scripts/build.js]

    A shallow embedding of the data-normalisation core of [SiteBuilder]
    (slug derivation, date resolution, excerpt extraction, content
    formatting, article loading and the RSS feed) together with the
    properties stated about it.

    Conventions of the embedding.
    - A JavaScript string is a list of code units; the code units are the
      256 values of [ascii], read as U+0000..U+00FF.  [length] is therefore
      the JavaScript [.length].
    - A value read from [articles.json] is a [jsval]; only scalar field
      values are modelled.
    - A JavaScript call that can throw returns a [result].
    - Time values are integer milliseconds since the epoch ([Z]); an
      Invalid Date is [None].
    - Host functions whose tables are not part of the repository
      ([String.prototype.toLowerCase], [Date.parse], the date printers,
      [JSON.parse]) are variables of the sections that use them. *)

From Stdlib Require Import List Ascii String ZArith Lia Bool Arith DecimalString.
From Stdlib Require Import Permutation Sorted.
Import ListNotations.

Set Implicit Arguments.

(* ------------------------------------------------------------------ *)
(** ** Strings *)

Definition str := list ascii.

(** A string literal of the source. *)
Definition lit (s : string) : str := list_ascii_of_string s.

Definition ch (s : string) : ascii :=
  match s with String c _ => c | EmptyString => zero end.

(** [s.startsWith(p)]. *)
Fixpoint starts_with (p s : str) : bool :=
  match p, s with
  | [], _ => true
  | _ :: _, [] => false
  | a :: p', b :: s' => Ascii.eqb a b && starts_with p' s'
  end.

(** [s.includes(p)]. *)
Fixpoint includes (p s : str) : bool :=
  starts_with p s ||
  match s with
  | [] => false
  | _ :: s' => includes p s'
  end.

(** [s.substring(0, n)] for [0 <= n]. *)
Definition substring0 (n : nat) (s : str) : str := firstn n s.

(** White space and line terminators below U+0100, as removed by
    [String.prototype.trim]: TAB, LF, VT, FF, CR, SPACE and NBSP. *)
Definition is_white (c : ascii) : bool :=
  let n := nat_of_ascii c in
  ((9 <=? n) && (n <=? 13)) || (n =? 32) || (n =? 160).

Fixpoint trim_start (s : str) : str :=
  match s with
  | c :: s' => if is_white c then trim_start s' else s
  | [] => []
  end.

Definition trim_end (s : str) : str := rev (trim_start (rev s)).

(** [s.trim()]. *)
Definition trim (s : str) : str := trim_end (trim_start s).

(** [s.split(sep)] for a non-empty separator: the pieces between the
    successive leftmost, non-overlapping occurrences of [sep].  [skip] counts
    the code units of a separator occurrence still to be passed over and
    [cur] holds the current piece, reversed. *)
Fixpoint split_go (sep : str) (skip : nat) (cur : str) (s : str) : list str :=
  match s with
  | [] => [rev cur]
  | c :: s' =>
      match skip with
      | S k => split_go sep k cur s'
      | O =>
          if starts_with sep s
          then rev cur :: split_go sep (List.length sep - 1) [] s'
          else split_go sep 0 (c :: cur) s'
      end
  end.

Definition split (sep s : str) : list str := split_go sep 0 [] s.

(** [pieces.join(sep)]. *)
Fixpoint join (sep : str) (pieces : list str) : str :=
  match pieces with
  | [] => []
  | [p] => p
  | p :: rest => p ++ sep ++ join sep rest
  end.

(* ------------------------------------------------------------------ *)
(** ** Regular expressions

    The fragment used by the builder: character classes, greedy repetition
    of a class, the anchors and alternation, matched by backtracking in
    priority order as [RegExp.prototype.exec] does. *)

Module Regex.

Inductive regex : Type :=
| RSet (p : ascii -> bool)        (* one code unit of a class *)
| RStar (p : ascii -> bool)       (* class*, greedy *)
| RPlus (p : ascii -> bool)       (* class+, greedy *)
| RBol                            (* ^ *)
| REol                            (* $ *)
| RSeq (r1 r2 : regex)
| RAlt (r1 r2 : regex).

(** Continuations receive the rest of the input and the number of code
    units consumed so far, and answer with the length of the whole match. *)
Definition kont := str -> nat -> option nat.

Fixpoint star (p : ascii -> bool) (k : kont) (s : str) (n : nat) : option nat :=
  match s with
  | c :: s' =>
      if p c
      then match star p k s' (S n) with
           | Some m => Some m
           | None => k s n
           end
      else k s n
  | [] => k [] n
  end.

(** [at_start] tells whether the attempt begins at index 0 of the input. *)
Fixpoint run (r : regex) (at_start : bool) (k : kont) (s : str) (n : nat)
  : option nat :=
  match r with
  | RSet p =>
      match s with
      | c :: s' => if p c then k s' (S n) else None
      | [] => None
      end
  | RStar p => star p k s n
  | RPlus p =>
      match s with
      | c :: s' => if p c then star p k s' (S n) else None
      | [] => None
      end
  | RBol => if at_start && (n =? 0) then k s n else None
  | REol => match s with [] => k s n | _ :: _ => None end
  | RSeq r1 r2 => run r1 at_start (run r2 at_start k) s n
  | RAlt r1 r2 =>
      match run r1 at_start k s n with
      | Some m => Some m
      | None => run r2 at_start k s n
      end
  end.

(** Length of the match of [r] at the head of [s], if any. *)
Definition exec (r : regex) (at_start : bool) (s : str) : option nat :=
  run r at_start (fun _ n => Some n) s 0.

(** [s.replace(/r/g, repl)] with a replacement free of [$] patterns.
    [skip] counts the code units of the current match still to be dropped;
    an empty match inserts [repl] and steps over one code unit. *)
Fixpoint replace_go (r : regex) (repl : str) (at_start : bool) (skip : nat)
  (s : str) : str :=
  match s with
  | [] =>
      match skip with
      | S _ => []
      | O => match exec r at_start [] with Some _ => repl | None => [] end
      end
  | c :: s' =>
      match skip with
      | S k => replace_go r repl false k s'
      | O =>
          match exec r at_start s with
          | Some (S k) => repl ++ replace_go r repl false k s'
          | Some O => repl ++ c :: replace_go r repl false 0 s'
          | None => c :: replace_go r repl false 0 s'
          end
      end
  end.

Definition replace_all (r : regex) (repl : str) (s : str) : str :=
  replace_go r repl true 0 s.

End Regex.
Import Regex.

Definition is_char (c : ascii) : ascii -> bool := Ascii.eqb c.

Definition in_range (lo hi : ascii) (c : ascii) : bool :=
  (nat_of_ascii lo <=? nat_of_ascii c) && (nat_of_ascii c <=? nat_of_ascii hi).

(** The class [a-z0-9]. *)
Definition lower_alnum (c : ascii) : bool :=
  in_range (ch "a") (ch "z") c || in_range (ch "0") (ch "9") c.

Definition not_class (p : ascii -> bool) (c : ascii) : bool := negb (p c).

(** [/[^a-z0-9]+/] *)
Definition re_non_alnum_run : regex := RPlus (not_class lower_alnum).

(** [/^-|-$/] *)
Definition re_edge_hyphen : regex :=
  RAlt (RSeq RBol (RSet (is_char (ch "-"))))
       (RSeq (RSet (is_char (ch "-"))) REol).

(** [/<[^>]*>/] *)
Definition re_tag : regex :=
  RSeq (RSet (is_char (ch "<")))
       (RSeq (RStar (not_class (is_char (ch ">")))) (RSet (is_char (ch ">")))).

(* ------------------------------------------------------------------ *)
(** ** Values, exceptions and article records *)

(** A scalar JSON value, or [undefined] for a property that is absent.
    Numbers are the integral ones. *)
Inductive jsval : Type :=
| JUndefined
| JNull
| JBool (b : bool)
| JNum (n : Z)
| JStr (s : str).

(** ToBoolean. *)
Definition truthy (v : jsval) : bool :=
  match v with
  | JUndefined | JNull => false
  | JBool b => b
  | JNum n => negb (n =? 0)%Z
  | JStr s => match s with [] => false | _ :: _ => true end
  end.

(** [a || b]. *)
Definition js_or (a b : jsval) : jsval := if truthy a then a else b.

Inductive error : Type :=
| TypeError
| SyntaxError
| SystemError.

Inductive result (A : Type) : Type :=
| Ok (a : A)
| Throw (e : error).

Arguments Ok {A} a.
Arguments Throw {A} e.

Definition bind {A B : Type} (r : result A) (f : A -> result B) : result B :=
  match r with
  | Ok a => f a
  | Throw e => Throw e
  end.

Notation "x <- r ;; k" := (bind r (fun x => k))
  (at level 61, r at next level, right associativity).

(** [try { body } catch (error) { handler }] around a body that returns. *)
Definition try_catch {A : Type} (body : result A) (handler : error -> A) : A :=
  match body with
  | Ok a => a
  | Throw e => handler e
  end.

Fixpoint map_result {A B : Type} (f : A -> result B) (l : list A)
  : result (list B) :=
  match l with
  | [] => Ok []
  | a :: l' => b <- f a ;; bs <- map_result f l' ;; Ok (b :: bs)
  end.

(** An element of the array in [articles.json], with the properties the
    builder reads. *)
Record article : Type := mkArticle {
  slug : jsval;
  id : jsval;
  title : jsval;
  content : jsval;
  excerpt : jsval;
  author : jsval;
  date : jsval;
  published_at : jsval;
  image : jsval
}.

(** The object [{}]. *)
Definition empty_article : article :=
  mkArticle JUndefined JUndefined JUndefined JUndefined JUndefined
            JUndefined JUndefined JUndefined JUndefined.

(** The value [JSON.parse] returns: an array of records, or anything else. *)
Inductive json : Type :=
| JArray (elements : list article)
| JNotArray.

(* ------------------------------------------------------------------ *)
(** ** Dates *)

(** TimeClip: a time value is at most 8.64e15 ms away from the epoch. *)
Definition time_clip (t : Z) : option Z :=
  if (Z.abs t <=? 8640000000000000)%Z then Some t else None.

(** [Array.prototype.sort(comparefn)].  The comparator answers a number,
    [None] standing for NaN, which the sort reads as [+0].  ECMAScript fixes
    the result when the comparator is consistent: the stable arrangement
    in which no element is followed by one that compares before it.  The
    embedding is the insertion sort, which produces that arrangement.  (With
    a comparator that is not consistent, as when a date is invalid, the
    order is left to the engine and only what every rearrangement shares
    can be read off the embedding.) *)
Section ArraySort.
Variable A : Type.
Variable comparefn : A -> A -> option Z.

(** [comparefn(x, y) > 0]: [x] is to come after [y]. *)
Definition sorts_after (x y : A) : bool :=
  match comparefn x y with
  | Some v => (0 <? v)%Z
  | None => false
  end.

Fixpoint sort_insert (x : A) (l : list A) : list A :=
  match l with
  | [] => [x]
  | y :: l' => if sorts_after x y then y :: sort_insert x l' else x :: l
  end.

Fixpoint array_sort (l : list A) : list A :=
  match l with
  | [] => []
  | x :: l' => sort_insert x (array_sort l')
  end.
End ArraySort.

(* ------------------------------------------------------------------ *)
(** ** The class [SiteBuilder] *)

Definition dquote : str := ["034"%char].

(** [date.toUTCString()] and the like print an Invalid Date this way. *)
Definition invalid_date_text : str := lit "Invalid Date".

Section SiteBuilder.

(** Host functions. *)
Variable toLowerCase : str -> str.           (* String.prototype.toLowerCase *)
Variable Date_parse : str -> option Z.       (* Date.parse; [None] is NaN *)
Variable toUTCString : Z -> str.             (* of a valid Date *)
Variable toISOString : Z -> str.             (* of a valid Date *)
Variable Number_toString : Z -> str.         (* Number.prototype.toString *)
Variable JSON_parse : str -> result json.    (* throws SyntaxError *)

(** [Date.now()]: a build runs at one logical point in time. *)
Variable now : Z.

(** [`${v}`] *)
Definition to_string (v : jsval) : str :=
  match v with
  | JUndefined => lit "undefined"
  | JNull => lit "null"
  | JBool true => lit "true"
  | JBool false => lit "false"
  | JNum n => Number_toString n
  | JStr s => s
  end.

(** [new Date(v)] *)
Definition new_Date (v : jsval) : option Z :=
  match v with
  | JStr s => Date_parse s
  | JNum n => time_clip n
  | JBool b => Some (if b then 1 else 0)%Z
  | JNull => Some 0%Z
  | JUndefined => None
  end.

(** [new Date(article.date || article.published_at || Date.now())], as in
    [getHomePageHTML], [getArticlePageHTML] and [getRSSFeed]. *)
Definition article_date (a : article) : option Z :=
  new_Date (js_or (js_or (date a) (published_at a)) (JNum now)).

(** [new Date(a.date || a.published_at || 0)], the sort key of
    [loadArticles]. *)
Definition sort_date (a : article) : option Z :=
  new_Date (js_or (js_or (date a) (published_at a)) (JNum 0)).

(** [date1 - date2] *)
Definition date_minus (d1 d2 : option Z) : option Z :=
  match d1, d2 with
  | Some t1, Some t2 => Some (t1 - t2)%Z
  | _, _ => None
  end.

(** [(a, b) => new Date(b.date || ...) - new Date(a.date || ...)] *)
Definition by_date_desc (a b : article) : option Z :=
  date_minus (sort_date b) (sort_date a).

Definition createSampleArticles : list article :=
  [ {| slug := JUndefined;
       id := JStr (lit "sample-article");
       title := JStr (lit "Welcome to Your Automated Content Site");
       content := JStr (lit "This is a sample article. Update your articles.json file to add your own content!");
       excerpt := JStr (lit "Get started with your automated content management system.");
       author := JStr (lit "Site Builder");
       date := JStr (toISOString now);
       published_at := JUndefined;
       image := JNull |} ].

(** [articles.sort(...)]: only arrays have the method. *)
Definition sort_articles (parsed : json) : result (list article) :=
  match parsed with
  | JArray articles => Ok (array_sort by_date_desc articles)
  | JNotArray => Throw TypeError
  end.

(** [loadArticles], given what [fs.readFile(this.articlesFile)] yields. *)
Definition loadArticles (file : result str) : list article :=
  try_catch
    (data <- file ;;
     articles <- JSON_parse data ;;
     sort_articles articles)
    (fun _ => createSampleArticles).

Definition getArticleSlug (a : article) : result str :=
  match js_or (js_or (js_or (slug a) (id a)) (title a)) (JStr (lit "untitled")) with
  | JStr s =>
      Ok (replace_all re_edge_hyphen (lit "")
            (replace_all re_non_alnum_run (lit "-") (toLowerCase s)))
  | _ => Throw TypeError          (* no [toLowerCase] on a number or boolean *)
  end.

Definition extractExcerpt (content : jsval) (len : nat) : result str :=
  if negb (truthy content) then Ok (lit "")
  else
    match content with
    | JStr c =>
        let text := trim (replace_all re_tag (lit "") c) in
        Ok (if len <? List.length text
            then substring0 len text ++ lit "..."
            else text)
    | _ => Throw TypeError        (* no [replace] on a number or boolean *)
    end.

(** The default value of the parameter [length]. *)
Definition default_length : nat := 150.

Definition formatContent (content : jsval) : result str :=
  if negb (truthy content) then Ok (lit "")
  else
    match content with
    | JStr c =>
        if negb (includes (lit "<") c)
        then Ok (join (lit "")
                   (map (fun p => lit "<p>" ++ trim p ++ lit "</p>")
                        (split [ "010"%char; "010"%char ] c)))
        else Ok c
    | _ => Throw TypeError        (* no [includes] on a number or boolean *)
    end.

(** [article.excerpt || this.extractExcerpt(article.content)] *)
Definition excerpt_or_extract (a : article) : result jsval :=
  if truthy (excerpt a) then Ok (excerpt a)
  else e <- extractExcerpt (content a) default_length ;; Ok (JStr e).

Definition Date_toUTCString (d : option Z) : str :=
  match d with
  | Some t => toUTCString t
  | None => invalid_date_text
  end.

(** The callback of [map] in [getRSSFeed]. *)
Definition feed_item (a : article) : result str :=
  slug <- getArticleSlug a ;;
  let date := Date_toUTCString (article_date a) in
  description <- excerpt_or_extract a ;;
  Ok (lit "
        <item>
            <title><![CDATA[" ++ to_string (title a) ++ lit "]]></title>
            <link>articles/" ++ slug ++ lit ".html</link>
            <description><![CDATA[" ++ to_string description ++ lit "]]></description>
            <pubDate>" ++ date ++ lit "</pubDate>
            <guid>articles/" ++ slug ++ lit ".html</guid>
        </item>
      ").

(** [articles.slice(0, 20).map(...)] *)
Definition feed_items (articles : list article) : result (list str) :=
  map_result feed_item (firstn 20 articles).

Definition feed_head : str :=
  lit "<?xml version=" ++ dquote ++ lit "1.0" ++ dquote ++ lit " encoding="
    ++ dquote ++ lit "UTF-8" ++ dquote ++ lit "?>
<rss version=" ++ dquote ++ lit "2.0" ++ dquote ++ lit ">
    <channel>
        <title>Daily Content Hub</title>
        <description>Your automated content management system</description>
        <link>/</link>
        <lastBuildDate>" ++ Date_toUTCString (new_Date (JNum now)) ++ lit "</lastBuildDate>
        ".

Definition feed_tail : str := lit "
    </channel>
</rss>".

Definition getRSSFeed (articles : list article) : result str :=
  items <- feed_items articles ;;
  Ok (feed_head ++ join (lit "") items ++ feed_tail).

End SiteBuilder.

(* ------------------------------------------------------------------ *)
(** ** The build pipeline *)

(** The file system as one build meets it. *)
Record file_system : Type := {
  articles_json : result str;                (* fs.readFile(articlesFile) *)
  images_dir : result (list (str * bool));   (* fs.readdir(imagesDir), and
                                                whether each copy succeeds *)
  can_mkdir : bool;
  can_write : str -> bool
}.

Inductive output : Type :=
| Written (path : str) (text : str)
| Copied (from to : str).

(** How the process ends: normally, or by [process.exit(1)]. *)
Inductive outcome : Type :=
| Succeeded (files : list output)
| Failed (e : error).

Definition path_join (dir name : str) : str := dir ++ lit "/" ++ name.

Definition distDir : str := lit "dist".
Definition imagesDir : str := lit "images".

Section Build.

Variable toLowerCase : str -> str.
Variable Date_parse : str -> option Z.
Variable toUTCString : Z -> str.
Variable toISOString : Z -> str.
Variable Number_toString : Z -> str.
Variable JSON_parse : str -> result json.
Variable now : Z.

(** The static text of the HTML templates and of the stylesheet, applied to
    the values that are interpolated into it. *)
Variable featured_template : article -> str -> option Z -> jsval -> str.
Variable card_template : article -> str -> option Z -> jsval -> str.
Variable home_template : str -> str -> bool -> str.
Variable page_template : article -> option Z -> jsval -> str -> str.
Variable getCSS : str.

Variable fs : file_system.

Let slug_of := getArticleSlug toLowerCase.
Let date_of := article_date Date_parse now.

Definition writeFile (path text : str) : result output :=
  if can_write fs path then Ok (Written path text) else Throw SystemError.

Definition createDist : result unit :=
  if can_mkdir fs then Ok tt else Throw SystemError.

(** The loop of [copyAssets] stops at the first copy that fails. *)
Fixpoint copy_images (images : list (str * bool)) : list output :=
  match images with
  | [] => []
  | (name, ok) :: rest =>
      if ok
      then Copied (path_join imagesDir name)
                  (path_join (path_join distDir (lit "images")) name)
             :: copy_images rest
      else []
  end.

Definition copyAssets : result (list output) :=
  css <- writeFile (path_join distDir (lit "styles.css")) getCSS ;;
  Ok (css :: try_catch (images <- images_dir fs ;; Ok (copy_images images))
                       (fun _ => [])).

Definition home_card (a : article) : result str :=
  slug <- slug_of a ;;
  e <- excerpt_or_extract a ;;
  Ok (card_template a slug (date_of a) e).

Definition getHomePageHTML (articles : list article) : result str :=
  featuredSection <-
    match articles with
    | featuredArticle :: _ =>
        slug <- slug_of featuredArticle ;;
        e <- excerpt_or_extract featuredArticle ;;
        Ok (featured_template featuredArticle slug (date_of featuredArticle) e)
    | [] => Ok (lit "")
    end ;;
  let regularArticles := tl articles in
  cards <- map_result home_card regularArticles ;;
  Ok (home_template featuredSection (join (lit "") cards)
        (0 <? List.length regularArticles)).

Definition getArticlePageHTML (a : article) : result str :=
  e <- excerpt_or_extract a ;;
  body <- formatContent (content a) ;;
  Ok (page_template a (date_of a) e body).

Definition generateHomePage (articles : list article) : result output :=
  html <- getHomePageHTML articles ;;
  writeFile (path_join distDir (lit "index.html")) html.

Definition generateArticlePages (articles : list article)
  : result (list output) :=
  map_result
    (fun a =>
       html <- getArticlePageHTML a ;;
       slug <- slug_of a ;;
       writeFile (path_join (path_join distDir (lit "articles"))
                            (slug ++ lit ".html")) html)
    articles.

Definition generateRSSFeed (articles : list article) : result output :=
  rss <- getRSSFeed toLowerCase Date_parse toUTCString Number_toString now
           articles ;;
  writeFile (path_join distDir (lit "feed.xml")) rss.

(** What [build] runs once [loadArticles] has answered.  ([cleanDist]
    swallows its own exception and has no part in the outcome.) *)
Definition build_from (articles : list article) : result (list output) :=
  assets <- copyAssets ;;
  home <- generateHomePage articles ;;
  pages <- generateArticlePages articles ;;
  feed <- generateRSSFeed articles ;;
  Ok (assets ++ home :: pages ++ [feed]).

Definition build : outcome :=
  try_catch
    (_ <- createDist ;;
     let articles :=
       loadArticles Date_parse toISOString JSON_parse now (articles_json fs) in
     files <- build_from articles ;;
     Ok (Succeeded files))
    (fun e => Failed e).

End Build.

(* ------------------------------------------------------------------ *)
(** ** Host functions for worked examples *)

(** [toLowerCase] on U+0000..U+00FF: A-Z, and the capital letters of
    Latin-1 (U+00C0..U+00DE but the multiplication sign), move up by 32. *)
Definition lower_char (c : ascii) : ascii :=
  let n := nat_of_ascii c in
  if ((65 <=? n) && (n <=? 90))
     || ((192 <=? n) && (n <=? 222) && negb (n =? 215))
  then ascii_of_nat (n + 32)
  else c.

Definition latin1_toLowerCase (s : str) : str := map lower_char s.

Definition digit_value (c : ascii) : option Z :=
  let n := nat_of_ascii c in
  if (48 <=? n) && (n <=? 57) then Some (Z.of_nat (n - 48)) else None.

Fixpoint digits_value (acc : Z) (s : str) : option Z :=
  match s with
  | [] => Some acc
  | c :: s' =>
      match digit_value c with
      | Some d => digits_value (10 * acc + d) s'
      | None => None
      end
  end.

(** Days from 1970-01-01 to the given day of the proleptic Gregorian
    calendar. *)
Definition days_from_civil (y m d : Z) : Z :=
  let y' := (if m <=? 2 then y - 1 else y)%Z in
  let era := (y' / 400)%Z in
  let yoe := (y' - era * 400)%Z in
  let mp := ((m + 9) mod 12)%Z in
  let doy := ((153 * mp + 2) / 5 + d - 1)%Z in
  let doe := (yoe * 365 + yoe / 4 - yoe / 100 + doy)%Z in
  (era * 146097 + doe - 719468)%Z.

Definition ms_per_day : Z := 86400000.

(** [Date.parse] on the date-only form [YYYY-MM-DD] of the ECMAScript
    date-time string format (read as UTC midnight); every other string is
    NaN here. *)
Definition iso_Date_parse (s : str) : option Z :=
  match s with
  | [y1; y2; y3; y4; h1; m1; m2; h2; d1; d2] =>
      if Ascii.eqb h1 (ch "-") && Ascii.eqb h2 (ch "-") then
        match digits_value 0 [y1; y2; y3; y4],
              digits_value 0 [m1; m2], digits_value 0 [d1; d2] with
        | Some y, Some m, Some d =>
            if ((1 <=? m) && (m <=? 12) && (1 <=? d) && (d <=? 31))%Z
            then Some (days_from_civil y m d * ms_per_day)%Z
            else None
        | _, _, _ => None
        end
      else None
  | _ => None
  end.

(** A printer for time values and numbers: the decimal numeral. *)
Definition decimal (n : Z) : str :=
  lit (NilZero.string_of_int (Z.to_int n)).

(** [JSON.parse] on a text that is not JSON. *)
Definition JSON_parse_malformed (data : str) : result json := Throw SyntaxError.

(* ------------------------------------------------------------------ *)
(** ** Notions of the specification *)

(** The words [[a-z0-9]+]. *)
Definition alnum_word (w : str) : Prop :=
  w <> [] /\ Forall (fun c => lower_alnum c = true) w.

(** The pattern [[a-z0-9]+(-[a-z0-9]+)*]. *)
Inductive slug_pattern : str -> Prop :=
| slug_word (w : str) : alnum_word w -> slug_pattern w
| slug_more (w t : str) :
    alnum_word w -> slug_pattern t -> slug_pattern (w ++ ch "-" :: t).

(** The literal placeholder. *)
Definition placeholder : str := lit "untitled".

(** [s.endsWith(p)] *)
Definition ends_with (p s : str) : bool := starts_with (rev p) (rev s).

Definition ellipsis : str := lit "...".

(** The text up to the first occurrence of [p] in [s], and the text after
    that occurrence. *)
Fixpoint cut_at (p : str) (s : str) : option (str * str) :=
  if starts_with p s then Some ([], skipn (List.length p) s)
  else
    match s with
    | [] => None
    | c :: s' =>
        match cut_at p s' with
        | Some (before, rest) => Some (c :: before, rest)
        | None => None
        end
    end.

(** The raw text of a CDATA section at the head of [s]: it runs up to the
    first [ ]]> ]; the answer pairs it with the text that follows the
    section.  (The lexical extent only: an XML reader goes on to normalise
    line ends and to refuse the characters XML forbids.) *)
Definition read_cdata (s : str) : option (str * str) :=
  if starts_with (lit "<![CDATA[") s
  then cut_at (lit "]]>") (skipn 9 s)
  else None.

(** Two records that both carry a valid sort date are in newest-first
    order. *)
Definition newer_or_undated (Date_parse : str -> option Z) (a b : article)
  : bool :=
  match sort_date Date_parse a, sort_date Date_parse b with
  | Some ta, Some tb => (tb <=? ta)%Z
  | _, _ => true
  end.

(** Every record comes before none that is newer, the undated ones left
    out of the comparison. *)
Fixpoint newest_first (Date_parse : str -> option Z) (l : list article)
  : bool :=
  match l with
  | [] => true
  | a :: l' =>
      forallb (newer_or_undated Date_parse a) l' && newest_first Date_parse l'
  end.

(** The record [{date: ...}] with nothing else. *)
Definition dated (d : jsval) : article :=
  mkArticle JUndefined JUndefined JUndefined JUndefined JUndefined
            JUndefined d JUndefined JUndefined.

(** The record [{title: ...}] with nothing else. *)
Definition titled (t : str) : article :=
  mkArticle JUndefined JUndefined (JStr t) JUndefined JUndefined
            JUndefined JUndefined JUndefined JUndefined.

(** The record [{slug: ...}] with nothing else. *)
Definition slugged (s : str) : article :=
  mkArticle (JStr s) JUndefined JUndefined JUndefined JUndefined
            JUndefined JUndefined JUndefined JUndefined.

(* ------------------------------------------------------------------ *)
(** ** Auxiliary functions of the proofs *)

Fixpoint drop_while (p : ascii -> bool) (s : str) : str :=
  match s with
  | c :: s' => if p c then drop_while p s' else s
  | [] => []
  end.

Fixpoint run_length (p : ascii -> bool) (s : str) : nat :=
  match s with
  | c :: s' => if p c then S (run_length p s') else 0
  | [] => 0
  end.

(** What [/-$/] removes. *)
Fixpoint drop_last_hyphen (s : str) : str :=
  match s with
  | [] => []
  | c :: s' =>
      match s' with
      | [] => if Ascii.eqb c (ch "-") then [] else [c]
      | _ :: _ => c :: drop_last_hyphen s'
      end
  end.

(** What [/^-|-$/g] removes. *)
Definition strip_edge_hyphens (s : str) : str :=
  match s with
  | [] => []
  | c :: s' =>
      if Ascii.eqb c (ch "-") then drop_last_hyphen s'
      else c :: drop_last_hyphen s'
  end.

Definition is_ok {A : Type} (r : result A) : bool :=
  match r with Ok _ => true | Throw _ => false end.

(** Hyphen or [a-z0-9]: the code units of a slug. *)
Definition slug_char (c : ascii) : bool :=
  lower_alnum c || Ascii.eqb c (ch "-").

(** [s.replace(/[^a-z0-9]+/g, '-')] past index 0. *)
Definition collapse (s : str) : str :=
  replace_go re_non_alnum_run (lit "-") false 0 s.

(** A slug, possibly followed by one hyphen. *)
Definition slug_body (u : str) : Prop :=
  slug_pattern u \/ exists t, slug_pattern t /\ u = t ++ [ch "-"].

(** The record [a] with its [slug] property set to the string [s]. *)
Definition set_slug (a : article) (s : str) : article :=
  mkArticle (JStr s) (id a) (title a) (content a) (excerpt a) (author a)
            (date a) (published_at a) (image a).

(** The tag-stripped, trimmed content of [extractExcerpt]. *)
Definition stripped_text (c : str) : str :=
  trim (replace_all re_tag (lit "") c).

(** The paragraph separator of [formatContent]. *)
Definition blank_line : str := [ "010"%char; "010"%char ].

Definition paragraph (p : str) : str := lit "<p>" ++ trim p ++ lit "</p>".

(** [a] is dated no earlier than [b], both validly. *)
Definition no_older (Date_parse : str -> option Z) (a b : article) : Prop :=
  exists ta tb,
    sort_date Date_parse a = Some ta /\ sort_date Date_parse b = Some tb
    /\ (tb <= ta)%Z.

(** [JSON.parse] on a text that denotes the array [l]. *)
Definition JSON_parse_array (l : list article) (data : str) : result json :=
  Ok (JArray l).

Definition jan_2024 : article := dated (JStr (lit "2024-01-01")).
Definition mar_2024 : article := dated (JStr (lit "2024-03-01")).

Definition output_path (o : output) : str :=
  match o with
  | Written path _ => path
  | Copied _ to => to
  end.

(** A file system with an [articles.json] of the given text, no images
    directory, and every write allowed. *)
Definition writable_fs (data : str) : file_system :=
  {| articles_json := Ok data;
     images_dir := Throw SystemError;
     can_mkdir := true;
     can_write := fun _ => true |}.

(** Templates that keep the interpolated slug and body only. *)
Definition slug_only (a : article) (slug : str) (d : option Z) (e : jsval)
  : str := slug.
Definition body_only (a : article) (d : option Z) (e : jsval) (body : str)
  : str := body.
Definition sections_only (featured cards : str) (more : bool) : str :=
  featured ++ cards.

(** The character data of the title of a feed item, as an XML reader takes
    it, with the text that follows the section. *)
Definition item_title_cdata (item : str) : option (str * str) :=
  match cut_at (lit "<title>") item with
  | Some (_, rest) => read_cdata rest
  | None => None
  end.

(** The first truthy value of a list, as a chain of [||] selects it. *)
Definition first_truthy (vs : list jsval) : option jsval := find truthy vs.

Definition is_string (v : jsval) : bool :=
  match v with JStr _ => true | _ => false end.

(** Both replacements of [getArticleSlug]. *)
Definition normalize (s : str) : str :=
  replace_all re_edge_hyphen (lit "")
    (replace_all re_non_alnum_run (lit "-") s).

(** Some [<] of [s] is followed, somewhere later, by a [>]: [s] has a
    match of [/<[^>]*>/]. *)
Fixpoint has_tag (s : str) : bool :=
  match s with
  | [] => false
  | c :: s' =>
      (Ascii.eqb (ch "<") c && existsb (Ascii.eqb (ch ">")) s') || has_tag s'
  end.

(** [s.replace(/<[^>]*>/g, '')] past index 0. *)
Definition strip_tags (s : str) : str :=
  replace_go re_tag (lit "") false 0 s.

(** The sort date of [a] is valid and equal to [k]. *)
Definition dated_at (Date_parse : str -> option Z) (k : Z) (a : article)
  : bool :=
  match sort_date Date_parse a with
  | Some t => (t =? k)%Z
  | None => false
  end.




(** The link of an article inside the site. *)
Definition article_link (slug : str) : str :=
  lit "articles/" ++ slug ++ lit ".html".



(** The start tags [tag] of [s] that lie outside every CDATA section:
    [inside] tells whether the scan is within a section, which the first
    [ ]]> ] closes. *)
Fixpoint count_tags_go (tag : str) (inside : bool) (s : str) : nat :=
  match s with
  | [] => 0
  | _ :: s' =>
      if inside
      then count_tags_go tag (negb (starts_with (lit "]]>") s)) s'
      else if starts_with (lit "<![CDATA[") s
           then count_tags_go tag true s'
           else (if starts_with tag s then 1 else 0)
                + count_tags_go tag false s'
  end.

(** The [<item>] elements of a feed. *)
Definition count_items (feed : str) : nat :=
  count_tags_go (lit "<item>") false feed.

(** A title that closes its CDATA section and its item, and opens another
    item. *)
Definition splitting_title : str :=
  lit "x]]></title></item><item><title><![CDATA[y".

(** A non-zero number or [true]. *)
Definition number_or_true (v : jsval) : bool :=
  match v with
  | JNum n => negb (n =? 0)%Z
  | JBool b => b
  | _ => false
  end.


(* ================================================================== *)
(** * Properties *)

(** ** The regular-expression engine *)

Lemma replace_go_skip (r : regex) (repl : str) (k : nat) (s : str) :
  k <= List.length s ->
  replace_go r repl false k s = replace_go r repl false 0 (skipn k s).
Proof.
  revert k. induction s as [|c s IH]; intros k Hk.
  - assert (k = 0) by (simpl in Hk; lia). subst. reflexivity.
  - destruct k as [|k]; [reflexivity|].
    simpl in Hk. cbn [replace_go skipn]. apply IH. lia.
Qed.

Lemma star_run_length (p : ascii -> bool) (s : str) (n : nat) :
  star p (fun _ m => Some m) s n = Some (n + run_length p s).
Proof.
  revert n. induction s as [|c s IH]; intro n; simpl.
  - f_equal. lia.
  - destruct (p c).
    + rewrite IH. f_equal. lia.
    + f_equal. lia.
Qed.

Lemma skipn_run_length (p : ascii -> bool) (s : str) :
  skipn (run_length p s) s = drop_while p s.
Proof.
  induction s as [|c s IH]; simpl; [reflexivity|].
  destruct (p c); [exact IH | reflexivity].
Qed.

Lemma run_length_le (p : ascii -> bool) (s : str) :
  run_length p s <= List.length s.
Proof.
  induction s as [|c s IH]; simpl; [lia|]. destruct (p c); simpl; lia.
Qed.

Lemma drop_while_length (p : ascii -> bool) (s : str) :
  List.length (drop_while p s) <= List.length s.
Proof.
  induction s as [|c s IH]; simpl; [lia|]. destruct (p c); simpl; lia.
Qed.

(** *** [/[^a-z0-9]+/g] replaced by a hyphen *)

Lemma exec_non_alnum_run (b : bool) (s : str) :
  exec re_non_alnum_run b s =
  match s with
  | c :: s' =>
      if lower_alnum c then None
      else Some (S (run_length (not_class lower_alnum) s'))
  | [] => None
  end.
Proof.
  destruct s as [|c s]; [reflexivity|].
  unfold exec, re_non_alnum_run. cbn [run]. unfold not_class at 1.
  destruct (lower_alnum c); cbn [negb]; [reflexivity|].
  apply star_run_length.
Qed.

Lemma collapse_cons (b : bool) (c : ascii) (s : str) :
  replace_go re_non_alnum_run (lit "-") b 0 (c :: s) =
  if lower_alnum c
  then c :: replace_go re_non_alnum_run (lit "-") false 0 s
  else ch "-" :: replace_go re_non_alnum_run (lit "-") false 0
                   (drop_while (not_class lower_alnum) s).
Proof.
  cbn [replace_go]. rewrite exec_non_alnum_run.
  destruct (lower_alnum c); [reflexivity|].
  rewrite replace_go_skip by apply run_length_le.
  rewrite skipn_run_length. reflexivity.
Qed.

(** *** [/^-|-$/g] replaced by nothing *)

Lemma exec_edge_hyphen (b : bool) (s : str) :
  exec re_edge_hyphen b s =
  match s with
  | c :: s' =>
      if Ascii.eqb (ch "-") c
      then if b then Some 1
           else match s' with [] => Some 1 | _ :: _ => None end
      else None
  | [] => None
  end.
Proof.
  destruct s as [|c s]; [destruct b; reflexivity|].
  unfold exec, re_edge_hyphen, is_char. cbn [run andb Nat.eqb].
  destruct (Ascii.eqb (ch "-") c), b, s; reflexivity.
Qed.

Lemma edge_hyphen_inner (s : str) :
  replace_go re_edge_hyphen (lit "") false 0 s = drop_last_hyphen s.
Proof.
  induction s as [|c s IH]; [reflexivity|].
  cbn [replace_go]. rewrite exec_edge_hyphen.
  rewrite Ascii.eqb_sym.
  destruct s as [|d s].
  - cbn [drop_last_hyphen]. destruct (Ascii.eqb c (ch "-")); reflexivity.
  - rewrite IH.
    destruct (Ascii.eqb c (ch "-")); reflexivity.
Qed.

Lemma replace_edge_hyphen (s : str) :
  replace_all re_edge_hyphen (lit "") s = strip_edge_hyphens s.
Proof.
  destruct s as [|c s]; [reflexivity|].
  unfold replace_all. cbn [replace_go]. rewrite exec_edge_hyphen.
  rewrite Ascii.eqb_sym. unfold strip_edge_hyphens.
  destruct (Ascii.eqb c (ch "-")); cbn [lit list_ascii_of_string app];
    rewrite edge_hyphen_inner; reflexivity.
Qed.

(** *** [/<[^>]*>/g] replaced by nothing *)

Lemma star_until_gt (b : bool) (s : str) (n : nat) :
  star (not_class (is_char (ch ">")))
       (run (RSet (is_char (ch ">"))) b (fun _ m => Some m)) s n =
  match drop_while (not_class (is_char (ch ">"))) s with
  | _ :: _ => Some (S (n + run_length (not_class (is_char (ch ">"))) s))
  | [] => None
  end.
Proof.
  revert n. induction s as [|c s IH]; intro n; [reflexivity|].
  cbn [star drop_while run_length run].
  assert (Hp : not_class (is_char (ch ">")) c = negb (is_char (ch ">") c))
    by reflexivity.
  rewrite !Hp. destruct (is_char (ch ">") c); cbn [negb].
  - f_equal. lia.
  - rewrite IH.
    destruct (drop_while (not_class (is_char (ch ">"))) s); [reflexivity|].
    f_equal. lia.
Qed.

Lemma exec_tag (b : bool) (c : ascii) (s : str) :
  exec re_tag b (c :: s) =
  if Ascii.eqb (ch "<") c
  then match drop_while (not_class (is_char (ch ">"))) s with
       | _ :: _ => Some (S (S (run_length (not_class (is_char (ch ">"))) s)))
       | [] => None
       end
  else None.
Proof.
  unfold exec, re_tag. cbn [run]. unfold is_char at 1.
  destruct (Ascii.eqb (ch "<") c); [|reflexivity].
  exact (star_until_gt b s 1).
Qed.

(** A [<] is removed with everything up to the next [>]; without a later
    [>] it stays. *)
Lemma strip_tags_cons (b : bool) (c : ascii) (s : str) :
  replace_go re_tag (lit "") b 0 (c :: s) =
  if Ascii.eqb (ch "<") c
  then match drop_while (not_class (is_char (ch ">"))) s with
       | _ :: rest => replace_go re_tag (lit "") false 0 rest
       | [] => c :: replace_go re_tag (lit "") false 0 s
       end
  else c :: replace_go re_tag (lit "") false 0 s.
Proof.
  cbn [replace_go]. rewrite exec_tag.
  destruct (Ascii.eqb (ch "<") c); [|reflexivity].
  pose proof (skipn_run_length (not_class (is_char (ch ">"))) s) as Hk.
  pose proof (run_length_le (not_class (is_char (ch ">"))) s) as Hle.
  destruct (drop_while (not_class (is_char (ch ">"))) s) as [|d rest] eqn:Ed;
    [reflexivity|].
  assert (Hlt : S (run_length (not_class (is_char (ch ">"))) s)
                <= List.length s).
  { rewrite <- (firstn_skipn (run_length (not_class (is_char (ch ">"))) s) s)
      at 2.
    rewrite length_app, Hk, length_firstn. cbn [List.length]. lia. }
  rewrite replace_go_skip by exact Hlt.
  replace (skipn (S (run_length (not_class (is_char (ch ">"))) s)) s)
    with rest; [reflexivity|].
  change (S ?k) with (1 + k). rewrite <- skipn_skipn, Hk.
  reflexivity.
Qed.

(** ** String methods *)

Lemma split_go_skip (sep : str) (k : nat) (cur s : str) :
  split_go sep k cur s = split_go sep 0 cur (skipn k s).
Proof.
  revert k. induction s as [|c s IH]; intro k.
  - rewrite skipn_nil. reflexivity.
  - destruct k as [|k]; [reflexivity|]. cbn [split_go skipn]. apply IH.
Qed.

Lemma split_go_cons (sep : str) (k : nat) (cur s : str) :
  exists p rest, split_go sep k cur s = p :: rest.
Proof.
  revert k cur. induction s as [|c s IH]; intros k cur.
  - eexists _, _. reflexivity.
  - cbn [split_go]. destruct k as [|k]; [|apply IH].
    destruct (starts_with sep (c :: s)); [|apply IH].
    eexists _, _. reflexivity.
Qed.

Lemma starts_with_skipn (p s : str) :
  starts_with p s = true -> s = p ++ skipn (List.length p) s.
Proof.
  revert s. induction p as [|a p IH]; intros s H; [reflexivity|].
  destruct s as [|c s]; [discriminate H|].
  cbn [starts_with] in H. apply andb_true_iff in H. destruct H as [Hc Hp].
  apply Ascii.eqb_eq in Hc. subst c.
  cbn [List.length skipn app]. f_equal. apply IH, Hp.
Qed.

Lemma join_split_go (sep : str) (n : nat) (cur s : str) :
  sep <> [] -> List.length s <= n ->
  join sep (split_go sep 0 cur s) = rev cur ++ s.
Proof.
  intro Hsep. revert cur s. induction n as [|n IH]; intros cur s Hn.
  - destruct s; [|simpl in Hn; lia]. cbn. rewrite app_nil_r. reflexivity.
  - destruct s as [|c s]; [cbn; rewrite app_nil_r; reflexivity|].
    simpl in Hn. cbn [split_go].
    destruct (starts_with sep (c :: s)) eqn:E.
    + rewrite split_go_skip.
      destruct sep as [|a sep']; [congruence|].
      pose proof (starts_with_skipn _ _ E) as Hs.
      cbn [List.length skipn app] in Hs. injection Hs as Hc Hs'.
      replace (List.length (a :: sep') - 1) with (List.length sep')
        by (cbn [List.length]; lia).
      assert (Hlen : List.length (skipn (List.length sep') s) <= n).
      { rewrite length_skipn. lia. }
      pose proof (IH [] _ Hlen) as Hj.
      destruct (split_go_cons (a :: sep') 0 []
                  (skipn (List.length sep') s)) as (p & rest & Hp).
      rewrite Hp in *.
      change (join (a :: sep') (rev cur :: p :: rest))
        with (rev cur ++ (a :: sep') ++ join (a :: sep') (p :: rest)).
      rewrite Hj. cbn [rev app].
      rewrite Hs' at 2. subst a. reflexivity.
    + rewrite IH by lia. cbn [rev]. rewrite <- app_assoc. reflexivity.
Qed.

(** The pieces of [s.split(sep)], joined by [sep], give [s] back. *)
Lemma join_split (sep s : str) : sep <> [] -> join sep (split sep s) = s.
Proof. intro H. unfold split. apply (@join_split_go sep (List.length s) [] s H (le_n _)). Qed.

Lemma trim_start_spec (s : str) :
  exists w,
    s = w ++ trim_start s
    /\ Forall (fun c => is_white c = true) w
    /\ match trim_start s with
       | c :: _ => is_white c = false
       | [] => True
       end.
Proof.
  induction s as [|c s (w & Hs & Hw & Hh)].
  - exists []. repeat split. constructor.
  - cbn [trim_start]. destruct (is_white c) eqn:E.
    + exists (c :: w). split; [cbn; f_equal; exact Hs|].
      split; [constructor; assumption | exact Hh].
    + exists []. split; [reflexivity|]. split; [constructor | exact E].
Qed.

(** [s.trim()] removes white space at both ends and nothing else. *)
Lemma trim_spec (s : str) :
  exists l r,
    s = l ++ trim s ++ r
    /\ Forall (fun c => is_white c = true) l
    /\ Forall (fun c => is_white c = true) r
    /\ match trim s with
       | c :: _ => is_white c = false
       | [] => True
       end
    /\ match rev (trim s) with
       | c :: _ => is_white c = false
       | [] => True
       end.
Proof.
  destruct (trim_start_spec s) as (l & Hs & Hl & Hh).
  destruct (trim_start_spec (rev (trim_start s))) as (w & Ht & Hw & Hlast).
  exists l, (rev w).
  assert (Et : trim_start s = trim s ++ rev w).
  { unfold trim, trim_end. rewrite <- rev_app_distr, <- Ht, rev_involutive.
    reflexivity. }
  split; [rewrite <- Et; exact Hs|]. split; [exact Hl|].
  split; [apply Forall_rev, Hw|]. split.
  - destruct (trim s) as [|c t] eqn:E; [exact I|].
    rewrite Et in Hh. exact Hh.
  - unfold trim, trim_end. rewrite rev_involutive. exact Hlast.
Qed.

(** ** Slugs *)

Lemma alnum_not_hyphen (c : ascii) :
  lower_alnum c = true -> Ascii.eqb c (ch "-") = false.
Proof.
  destruct c as [[] [] [] [] [] [] [] []]; intro H;
    solve [reflexivity | discriminate H].
Qed.

Lemma replace_non_alnum_run (s : str) :
  replace_all re_non_alnum_run (lit "-") s = collapse s.
Proof.
  unfold replace_all, collapse. destruct s as [|c s]; [reflexivity|].
  rewrite !collapse_cons. reflexivity.
Qed.

Lemma collapse_cons_eq (c : ascii) (s : str) :
  collapse (c :: s) =
  if lower_alnum c then c :: collapse s
  else ch "-" :: collapse (drop_while (not_class lower_alnum) s).
Proof. apply collapse_cons. Qed.

Lemma slug_one (c : ascii) : lower_alnum c = true -> slug_pattern [c].
Proof.
  intro H. apply slug_word. split; [discriminate|]. constructor; auto.
Qed.

Lemma slug_cons (c : ascii) (t : str) :
  lower_alnum c = true -> slug_pattern t -> slug_pattern (c :: t).
Proof.
  intros Hc Ht. destruct Ht as [w [Hne Hw] | w t [Hne Hw] Ht].
  - apply slug_word. split; [discriminate|]. constructor; assumption.
  - change (slug_pattern ((c :: w) ++ ch "-" :: t)).
    apply slug_more; [|assumption].
    split; [discriminate|]. constructor; assumption.
Qed.

Lemma slug_hyphen (c : ascii) (t : str) :
  lower_alnum c = true -> slug_pattern t -> slug_pattern (c :: ch "-" :: t).
Proof.
  intros Hc Ht. change (slug_pattern ([c] ++ ch "-" :: t)).
  apply slug_more; [|assumption].
  split; [discriminate|]. constructor; auto.
Qed.

Lemma slug_pattern_head (t : str) :
  slug_pattern t -> exists c t', t = c :: t' /\ lower_alnum c = true.
Proof.
  intros [w [Hne Hw] | w u [Hne Hw] _];
    destruct w as [|c w]; try congruence;
    inversion Hw; subst; eexists _, _; (split; [reflexivity | assumption]).
Qed.

Lemma slug_pattern_last (t : str) :
  slug_pattern t -> exists t0 c, t = t0 ++ [c] /\ lower_alnum c = true.
Proof.
  induction 1 as [w [Hne Hw] | w u [Hne Hw] _ IH].
  - destruct (exists_last Hne) as (w0 & c & ->).
    exists w0, c. split; [reflexivity|].
    apply Forall_app in Hw. destruct Hw as [_ Hc]. inversion Hc; assumption.
  - destruct IH as (t0 & c & -> & Hc).
    exists (w ++ ch "-" :: t0), c. split; [|assumption].
    rewrite <- app_assoc. reflexivity.
Qed.

Lemma slug_pattern_chars (t : str) :
  slug_pattern t -> Forall (fun c => slug_char c = true) t.
Proof.
  assert (Hal : forall w, Forall (fun c => lower_alnum c = true) w ->
                          Forall (fun c => slug_char c = true) w).
  { intros w Hw. eapply Forall_impl; [|exact Hw].
    intros c Hc. unfold slug_char. rewrite Hc. reflexivity. }
  induction 1 as [w [_ Hw] | w u [_ Hw] _ IH].
  - auto.
  - apply Forall_app. split; [auto|]. constructor; [reflexivity | assumption].
Qed.

Lemma slug_body_cons (c : ascii) (u : str) :
  lower_alnum c = true -> slug_body u -> slug_body (c :: u).
Proof.
  intros Hc [Hu | (t & Ht & ->)].
  - left. apply slug_cons; assumption.
  - right. exists (c :: t). split; [apply slug_cons; assumption | reflexivity].
Qed.

Lemma slug_body_hyphen (c : ascii) (u : str) :
  lower_alnum c = true -> slug_body u -> slug_body (c :: ch "-" :: u).
Proof.
  intros Hc [Hu | (t & Ht & ->)].
  - left. apply slug_hyphen; assumption.
  - right. exists (c :: ch "-" :: t).
    split; [apply slug_hyphen; assumption | reflexivity].
Qed.

Lemma drop_while_head (p : ascii -> bool) (s : str) :
  match drop_while p s with
  | c :: _ => p c = false
  | [] => True
  end.
Proof.
  induction s as [|c s IH]; simpl; [exact I|].
  destruct (p c) eqn:E; [exact IH | exact E].
Qed.

(** The shape of [collapse s], by the first code unit of [s]. *)
Lemma collapse_shape (n : nat) (s : str) :
  List.length s <= n ->
  match s with
  | [] => collapse s = []
  | c :: _ =>
      if lower_alnum c then slug_body (collapse s)
      else collapse s = [ch "-"]
           \/ exists u, slug_body u /\ collapse s = ch "-" :: u
  end.
Proof.
  revert s. induction n as [|n IH]; intros s Hn.
  - destruct s; [reflexivity | simpl in Hn; lia].
  - destruct s as [|c s]; [reflexivity|].
    simpl in Hn. rewrite collapse_cons_eq.
    destruct (lower_alnum c) eqn:Ec.
    + destruct s as [|d s].
      * left. apply slug_one; assumption.
      * specialize (IH (d :: s) ltac:(lia)). cbv beta iota in IH.
        destruct (lower_alnum d).
        -- apply slug_body_cons; assumption.
        -- destruct IH as [-> | (u & Hu & ->)].
           ++ right. exists [c]. split; [apply slug_one; assumption | reflexivity].
           ++ apply slug_body_hyphen; assumption.
    + pose proof (drop_while_head (not_class lower_alnum) s) as Hh.
      pose proof (drop_while_length (not_class lower_alnum) s) as Hl.
      destruct (drop_while (not_class lower_alnum) s) as [|d s'] eqn:Ed.
      * left. reflexivity.
      * right. specialize (IH (d :: s') ltac:(lia)). cbv beta iota in IH.
        unfold not_class in Hh. apply negb_false_iff in Hh. rewrite Hh in IH.
        exists (collapse (d :: s')). split; [assumption | reflexivity].
Qed.

Lemma drop_last_hyphen_snoc_hyphen (t : str) :
  drop_last_hyphen (t ++ [ch "-"]) = t.
Proof.
  induction t as [|c t IH]; [reflexivity|].
  change ((c :: t) ++ [ch "-"]) with (c :: (t ++ [ch "-"])).
  cbn [drop_last_hyphen]. rewrite IH.
  destruct (t ++ [ch "-"]) eqn:E; [|reflexivity].
  destruct t; discriminate E.
Qed.

Lemma drop_last_hyphen_snoc_other (t : str) (c : ascii) :
  Ascii.eqb c (ch "-") = false -> drop_last_hyphen (t ++ [c]) = t ++ [c].
Proof.
  intro Hc. induction t as [|d t IH].
  - cbn [app drop_last_hyphen]. rewrite Hc. reflexivity.
  - change ((d :: t) ++ [c]) with (d :: (t ++ [c])).
    cbn [drop_last_hyphen]. rewrite IH.
    destruct (t ++ [c]) eqn:E; [|reflexivity].
    destruct t; discriminate E.
Qed.

Lemma drop_last_hyphen_slug (t : str) :
  slug_pattern t -> drop_last_hyphen t = t.
Proof.
  intro Ht. destruct (slug_pattern_last Ht) as (t0 & c & -> & Hc).
  apply drop_last_hyphen_snoc_other, alnum_not_hyphen, Hc.
Qed.

Lemma drop_last_hyphen_body (u : str) :
  slug_body u -> slug_pattern (drop_last_hyphen u).
Proof.
  intros [Hu | (t & Ht & ->)].
  - rewrite drop_last_hyphen_slug; assumption.
  - rewrite drop_last_hyphen_snoc_hyphen. assumption.
Qed.

Lemma strip_edge_hyphens_other (c : ascii) (s : str) :
  Ascii.eqb c (ch "-") = false ->
  strip_edge_hyphens (c :: s) = drop_last_hyphen (c :: s).
Proof.
  intro Hc. cbn [strip_edge_hyphens drop_last_hyphen]. rewrite Hc.
  destruct s; reflexivity.
Qed.

Lemma strip_edge_hyphens_body (u : str) :
  slug_body u -> slug_pattern (strip_edge_hyphens u).
Proof.
  intro Hu.
  assert (Hh : exists c u', u = c :: u' /\ lower_alnum c = true).
  { destruct Hu as [Hu | (t & Ht & ->)].
    - apply slug_pattern_head, Hu.
    - destruct (slug_pattern_head Ht) as (c & t' & -> & Hc).
      exists c, (t' ++ [ch "-"]). split; [reflexivity | assumption]. }
  destruct Hh as (c & u' & -> & Hc).
  rewrite strip_edge_hyphens_other by (apply alnum_not_hyphen, Hc).
  apply drop_last_hyphen_body, Hu.
Qed.

(** Both replacements of [getArticleSlug] leave nothing or a slug. *)
Lemma normalized_shape (s : str) :
  let t := replace_all re_edge_hyphen (lit "")
             (replace_all re_non_alnum_run (lit "-") s) in
  t = [] \/ slug_pattern t.
Proof.
  cbv zeta. rewrite replace_edge_hyphen, replace_non_alnum_run.
  pose proof (@collapse_shape (List.length s) s (le_n _)) as H.
  destruct s as [|c s]; [left; rewrite H; reflexivity|].
  destruct (lower_alnum c).
  - right. apply strip_edge_hyphens_body, H.
  - destruct H as [-> | (u & Hu & ->)].
    + left. reflexivity.
    + right. cbn [strip_edge_hyphens].
      change (Ascii.eqb (ch "-") (ch "-")) with true. cbv iota.
      apply drop_last_hyphen_body, Hu.
Qed.

Lemma collapse_word (w x : str) :
  Forall (fun c => lower_alnum c = true) w ->
  collapse (w ++ x) = w ++ collapse x.
Proof.
  induction 1 as [|c w Hc _ IH]; [reflexivity|].
  change ((c :: w) ++ x) with (c :: (w ++ x)).
  rewrite collapse_cons_eq, Hc, IH. reflexivity.
Qed.

Lemma collapse_slug (t : str) : slug_pattern t -> collapse t = t.
Proof.
  induction 1 as [w [_ Hw] | w u [_ Hw] Hu IH].
  - rewrite <- (app_nil_r w) at 1. rewrite collapse_word by assumption.
    rewrite app_nil_r. reflexivity.
  - rewrite collapse_word by assumption. f_equal.
    rewrite collapse_cons_eq.
    change (lower_alnum (ch "-")) with false. cbv iota.
    destruct (slug_pattern_head Hu) as (c & u' & -> & Hc).
    cbn [drop_while]. unfold not_class at 1. rewrite Hc. cbn [negb].
    rewrite IH. reflexivity.
Qed.

(** A slug is a fixed point of both replacements. *)
Lemma normalized_slug (t : str) :
  slug_pattern t ->
  replace_all re_edge_hyphen (lit "")
    (replace_all re_non_alnum_run (lit "-") t) = t.
Proof.
  intro Ht. rewrite replace_edge_hyphen, replace_non_alnum_run.
  rewrite collapse_slug by assumption.
  destruct (slug_pattern_head Ht) as (c & t' & E & Hc).
  rewrite E. rewrite strip_edge_hyphens_other by (apply alnum_not_hyphen, Hc).
  rewrite <- E. apply drop_last_hyphen_slug, Ht.
Qed.

Lemma slug_pattern_nonempty (t : str) : slug_pattern t -> t <> [].
Proof.
  intro Ht. destruct (slug_pattern_head Ht) as (c & t' & -> & _). discriminate.
Qed.

Section SlugProperties.

Variable toLowerCase : str -> str.

Lemma getArticleSlug_shape (a : article) (s : str) :
  getArticleSlug toLowerCase a = Ok s -> s = [] \/ slug_pattern s.
Proof.
  unfold getArticleSlug.
  destruct (js_or _ _); try discriminate.
  intro H. injection H as <-. apply normalized_shape.
Qed.

Lemma getArticleSlug_of_slug (b : article) (s : str) :
  s <> [] -> slug b = JStr s ->
  getArticleSlug toLowerCase b =
  Ok (replace_all re_edge_hyphen (lit "")
        (replace_all re_non_alnum_run (lit "-") (toLowerCase s))).
Proof.
  intros Hne Hb. unfold getArticleSlug. rewrite Hb.
  destruct s as [|c s]; [congruence|]. reflexivity.
Qed.

(** Re-derivation from a record that carries a non-empty derived slug. *)
Lemma getArticleSlug_rederive (a b : article) (s : str) :
  (forall t, Forall (fun c => slug_char c = true) t -> toLowerCase t = t) ->
  getArticleSlug toLowerCase a = Ok s ->
  s <> [] ->
  slug b = JStr s ->
  getArticleSlug toLowerCase b = Ok s.
Proof.
  intros Hlow Ha Hne Hb.
  destruct (getArticleSlug_shape _ Ha) as [-> | Hs]; [congruence|].
  rewrite (getArticleSlug_of_slug _ Hne Hb).
  rewrite Hlow by (apply slug_pattern_chars, Hs).
  rewrite normalized_slug by assumption. reflexivity.
Qed.

End SlugProperties.

Lemma latin1_toLowerCase_slug_chars (t : str) :
  Forall (fun c => slug_char c = true) t -> latin1_toLowerCase t = t.
Proof.
  induction 1 as [|c t Hc _ IH]; [reflexivity|].
  cbn [latin1_toLowerCase map]. fold (latin1_toLowerCase t). rewrite IH.
  f_equal. revert Hc.
  destruct c as [[] [] [] [] [] [] [] []]; intro H;
    solve [reflexivity | discriminate H].
Qed.

Example slug_of_hello_world :
  getArticleSlug latin1_toLowerCase (titled (lit "Hello, World!"))
  = Ok (lit "hello-world").
Proof. reflexivity. Qed.

Example slug_rederive_hello_world :
  getArticleSlug latin1_toLowerCase (slugged (lit "hello-world"))
  = Ok (lit "hello-world").
Proof.
  apply (@getArticleSlug_rederive latin1_toLowerCase
           (titled (lit "Hello, World!")) (slugged (lit "hello-world"))).
  - exact latin1_toLowerCase_slug_chars.
  - reflexivity.
  - discriminate.
  - reflexivity.
Defined.

Lemma not_slug_pattern_nil : ~ slug_pattern [].
Proof. intro H. exact (slug_pattern_nonempty H eq_refl). Qed.

(** C3. The slug derived from a record is claimed to be non-empty and to
    match [[a-z0-9]+(-[a-z0-9]+)*] or to be the placeholder.  For the record
    [{title: "!!!"}] the code returns the empty string: the one run of
    punctuation becomes a hyphen, which the second replacement removes, and
    the placeholder is substituted only before normalisation. *)
Theorem slug_of_punctuation_title_is_empty :
  getArticleSlug latin1_toLowerCase (titled (lit "!!!")) = Ok (lit "")
  /\ ~ slug_pattern (lit "")
  /\ lit "" <> placeholder.
Proof.
  split; [reflexivity|]. split; [exact not_slug_pattern_nil | discriminate].
Qed.

(** C8. Slug derivation is claimed to be idempotent: a record whose slug
    property is a previously derived slug yields that slug again.  The slug
    derived from [{title: "!!!"}] is the empty string, and a record whose
    slug is the empty string yields the placeholder, or the slug of its
    title. *)
Theorem empty_slug_is_not_rederived :
  getArticleSlug latin1_toLowerCase (titled (lit "!!!")) = Ok (lit "")
  /\ getArticleSlug latin1_toLowerCase (slugged (lit "")) = Ok placeholder
  /\ getArticleSlug latin1_toLowerCase
       (set_slug (titled (lit "Hello")) (lit "")) = Ok (lit "hello").
Proof. repeat split. Qed.

(** ** Content formatting *)

Lemma join_empty_concat (l : list str) : join (lit "") l = List.concat l.
Proof.
  induction l as [|p l IH]; [reflexivity|].
  cbn [join List.concat]. destruct l as [|q l].
  - cbn [List.concat]. rewrite app_nil_r. reflexivity.
  - rewrite IH. reflexivity.
Qed.

Lemma formatContent_plain_head (c : str) :
  exists x,
    join (lit "") (map paragraph (split blank_line c)) = ch "<" :: x.
Proof.
  unfold split. destruct (split_go_cons blank_line 0 [] c) as (p & rest & ->).
  rewrite join_empty_concat. cbn [map List.concat]. unfold paragraph at 1.
  eexists. reflexivity.
Qed.

Lemma includes_head (c : ascii) (x : str) : includes [c] (c :: x) = true.
Proof. cbn [includes starts_with]. rewrite Ascii.eqb_refl. reflexivity. Qed.

(** C4, as the code has it: the test is for [<] alone.  Content without
    [<] is split on the blank line, each piece trimmed and wrapped in a
    paragraph tag, the paragraphs concatenated; content with a [<] is
    returned as it is; empty and absent content give the empty string. *)
Theorem formatContent_cases (c : str) :
  formatContent (JStr c) =
    Ok (match c with
        | [] => lit ""
        | _ :: _ =>
            if includes (lit "<") c then c
            else List.concat (map (fun p => lit "<p>" ++ trim p ++ lit "</p>")
                             (split blank_line c))
        end)
  /\ formatContent JUndefined = Ok (lit "")
  /\ formatContent JNull = Ok (lit "").
Proof.
  repeat split. destruct c as [|d c]; [reflexivity|].
  unfold formatContent. cbn [truthy negb].
  destruct (includes (lit "<") (d :: c)); cbn [negb]; [reflexivity|].
  rewrite join_empty_concat. reflexivity.
Qed.

(** C4, as stated, fails on content with a [>] and no [<]: it is wrapped
    in a paragraph tag, not returned unchanged. *)
Lemma formatContent_wraps_greater_than :
  includes (lit ">") (lit "a > b") = true
  /\ formatContent (JStr (lit "a > b")) = Ok (lit "<p>a > b</p>")
  /\ lit "<p>a > b</p>" <> lit "a > b".
Proof. repeat split. discriminate. Qed.

Example formatContent_two_paragraphs :
  formatContent (JStr (lit "Hello

World")) = Ok (lit "<p>Hello</p><p>World</p>").
Proof. reflexivity. Qed.

Example formatContent_markup :
  formatContent (JStr (lit "<p>Hi</p>")) = Ok (lit "<p>Hi</p>").
Proof. reflexivity. Qed.

(** C10. [formatContent] is idempotent on strings: what it returns for a
    string it returns again when applied to that result, because the result
    for a non-empty string always contains [<] and is passed through, and
    the empty string is mapped to itself. *)
Theorem formatContent_idempotent (c : str) :
  exists r,
    formatContent (JStr c) = Ok r
    /\ formatContent (JStr r) = Ok r
    /\ match c with
       | [] => r = []
       | _ :: _ => includes (lit "<") r = true
       end.
Proof.
  destruct c as [|d c].
  - exists []. repeat split.
  - unfold formatContent at 1. cbn [truthy negb].
    destruct (includes (lit "<") (d :: c)) eqn:E; cbn [negb].
    + exists (d :: c). split; [reflexivity|]. split; [|exact E].
      unfold formatContent. cbn [truthy negb]. rewrite E. reflexivity.
    + destruct (formatContent_plain_head (d :: c)) as (x & Hx).
      exists (ch "<" :: x). split; [f_equal; exact Hx|].
      change (lit "<") with [ch "<"]. split; [|apply includes_head].
      unfold formatContent. cbn [truthy negb].
      change (lit "<") with [ch "<"]. rewrite includes_head. reflexivity.
Qed.

(** ** Excerpts *)

Lemma starts_with_app (p x : str) : starts_with p (p ++ x) = true.
Proof.
  induction p as [|c p IH]; [reflexivity|].
  cbn [app starts_with]. rewrite Ascii.eqb_refl. exact IH.
Qed.

Lemma ends_with_app (p x : str) : ends_with p (x ++ p) = true.
Proof. unfold ends_with. rewrite rev_app_distr. apply starts_with_app. Qed.

Lemma extractExcerpt_string (c : str) (len : nat) :
  extractExcerpt (JStr c) len =
  Ok (if len <? List.length (stripped_text c)
      then substring0 len (stripped_text c) ++ lit "..."
      else stripped_text c).
Proof.
  destruct c as [|d c]; [|reflexivity].
  destruct len; reflexivity.
Qed.

(** C5, as the code has it.  The excerpt of a content string has at most
    153 code units.  When the tag-stripped, trimmed content has more than
    150, the excerpt is its first 150 followed by the ellipsis; otherwise
    it is that content itself, so that the excerpt ends in an ellipsis
    exactly when the content was cut or itself ends in one. *)
Theorem extractExcerpt_length (c : str) :
  exists e,
    extractExcerpt (JStr c) default_length = Ok e
    /\ List.length e <= 153
    /\ e = (if 150 <? List.length (stripped_text c)
            then firstn 150 (stripped_text c) ++ ellipsis
            else stripped_text c)
    /\ (ends_with ellipsis e = true <->
        150 < List.length (stripped_text c)
        \/ ends_with ellipsis (stripped_text c) = true).
Proof.
  rewrite extractExcerpt_string. unfold default_length, substring0.
  fold ellipsis. eexists. split; [reflexivity|].
  destruct (150 <? List.length (stripped_text c)) eqn:E.
  - apply Nat.ltb_lt in E. split; [|split; [reflexivity|]].
    + rewrite length_app, length_firstn.
      change (List.length ellipsis) with 3. lia.
    + split; [intros _; left; exact E | intros _; apply ends_with_app].
  - apply Nat.ltb_ge in E. split; [lia|]. split; [reflexivity|].
    split; [intro H; right; exact H | intros [H | H]; [lia | exact H]].
Qed.

(** C5, as stated, fails on content that ends in an ellipsis of its own:
    the excerpt ends in the ellipsis although the stripped content has no
    more than 150 code units. *)
Lemma extractExcerpt_keeps_own_ellipsis :
  extractExcerpt (JStr (lit "Wait...")) default_length = Ok (lit "Wait...")
  /\ ends_with ellipsis (lit "Wait...") = true
  /\ List.length (replace_all re_tag (lit "") (lit "Wait...")) <= 150.
Proof. repeat split. cbn. lia. Qed.

Example extractExcerpt_strips_tags :
  extractExcerpt (JStr (lit "<p>Hello <b>world</b></p> ")) default_length
  = Ok (lit "Hello world").
Proof. reflexivity. Qed.

(** ** Dates *)

Section DateProperties.

Variable Date_parse : str -> option Z.
Variable now : Z.

(** C2, as the code has it.  The date of a record is built from its
    [date] property when that is truthy, else from its [published_at]
    property when that is truthy, else from the current time.  The chosen
    value goes to the [Date] constructor as it is: a non-empty string is
    resolved by [Date.parse] alone, so an unparseable one gives an
    Invalid Date. *)
Theorem article_date_resolution (a : article) :
  article_date Date_parse now a =
    (if truthy (date a) then new_Date Date_parse (date a)
     else if truthy (published_at a)
          then new_Date Date_parse (published_at a)
          else time_clip now)
  /\ match date a with
     | JStr (c :: s) => article_date Date_parse now a = Date_parse (c :: s)
     | _ => True
     end.
Proof.
  unfold article_date, js_or. split.
  - destruct (truthy (date a)) eqn:Ed; cbv iota.
    + rewrite Ed. reflexivity.
    + destruct (truthy (published_at a)) eqn:Ep; cbv iota.
      * reflexivity.
      * reflexivity.
  - destruct (date a) as [| | |n|[|c s]]; try exact I. reflexivity.
Qed.

Lemma sort_date_undated (a : article) :
  truthy (date a) = false -> truthy (published_at a) = false ->
  sort_date Date_parse a = Some 0%Z.
Proof.
  intros H1 H2. unfold sort_date, js_or. rewrite H1, H2. reflexivity.
Qed.

End DateProperties.

(** C2, as stated, fails on a [date] that is present and unparseable: the
    record resolves to an Invalid Date, not to the current time. *)
Lemma unparseable_date_is_invalid :
  iso_Date_parse (lit "not a date") = None
  /\ article_date iso_Date_parse 1700000000000
       (dated (JStr (lit "not a date"))) = None
  /\ time_clip 1700000000000 = Some 1700000000000%Z.
Proof. repeat split. Qed.

Example article_date_prefers_date :
  article_date iso_Date_parse 1700000000000
    (mkArticle JUndefined JUndefined JUndefined JUndefined JUndefined
       JUndefined (JStr (lit "2024-03-01")) (JStr (lit "2024-01-01")) JUndefined)
  = Some 1709251200000%Z.
Proof. reflexivity. Qed.

Example article_date_undated :
  article_date iso_Date_parse 1700000000000 empty_article
  = Some 1700000000000%Z.
Proof. reflexivity. Qed.

(** ** Sorting *)

Section SortProperties.

Variable A : Type.
Variable comparefn : A -> A -> option Z.

Lemma sort_insert_perm (x : A) (l : list A) :
  Permutation (x :: l) (sort_insert comparefn x l).
Proof.
  induction l as [|y l IH]; cbn [sort_insert]; [reflexivity|].
  destruct (sorts_after comparefn x y); [|reflexivity].
  rewrite perm_swap. apply perm_skip, IH.
Qed.

Lemma array_sort_perm (l : list A) :
  Permutation l (array_sort comparefn l).
Proof.
  induction l as [|x l IH]; cbn [array_sort]; [reflexivity|].
  rewrite <- sort_insert_perm. apply perm_skip, IH.
Qed.

End SortProperties.

Section LoadProperties.

Variable Date_parse : str -> option Z.

Let cmp := by_date_desc Date_parse.
Let dated_ok (a : article) : Prop := sort_date Date_parse a <> None.

Lemma no_older_trans (a b c : article) :
  no_older Date_parse a b -> no_older Date_parse b c ->
  no_older Date_parse a c.
Proof.
  intros (ta & tb & Ha & Hb & Hab) (tb' & tc & Hb' & Hc & Hbc).
  rewrite Hb in Hb'. injection Hb' as <-.
  exists ta, tc. repeat split; try assumption. lia.
Qed.

Lemma sorts_after_dated (x y : article) :
  dated_ok x -> dated_ok y ->
  if sorts_after cmp x y
  then no_older Date_parse y x
  else no_older Date_parse x y.
Proof.
  unfold dated_ok, sorts_after, cmp, by_date_desc, date_minus, no_older.
  intros Hx Hy.
  destruct (sort_date Date_parse x) as [tx|]; [|congruence].
  destruct (sort_date Date_parse y) as [ty|]; [|congruence].
  destruct (0 <? ty - tx)%Z eqn:E.
  - apply Z.ltb_lt in E. exists ty, tx. repeat split. lia.
  - apply Z.ltb_ge in E. exists tx, ty. repeat split. lia.
Qed.

Lemma sort_insert_sorted (x : article) (l : list article) :
  dated_ok x -> Forall dated_ok l ->
  StronglySorted (no_older Date_parse) l ->
  StronglySorted (no_older Date_parse) (sort_insert cmp x l).
Proof.
  intros Hx Hl Hs. induction Hs as [|y l Hs IH Hy]; cbn [sort_insert].
  - constructor; constructor.
  - inversion Hl as [|? ? Hdy Hdl]; subst.
    pose proof (sorts_after_dated Hx Hdy) as Hxy.
    destruct (sorts_after cmp x y).
    + constructor; [apply IH, Hdl|].
      eapply Permutation_Forall; [apply sort_insert_perm|].
      constructor; assumption.
    + constructor; [constructor; assumption|].
      constructor; [assumption|].
      eapply Forall_impl; [|exact Hy].
      intros z Hz. eapply no_older_trans; eassumption.
Qed.

Lemma array_sort_sorted (l : list article) :
  Forall dated_ok l ->
  StronglySorted (no_older Date_parse) (array_sort cmp l).
Proof.
  induction 1 as [|x l Hx Hl IH]; cbn [array_sort]; [constructor|].
  apply sort_insert_sorted; [assumption| |assumption].
  eapply Permutation_Forall; [apply array_sort_perm | assumption].
Qed.

Variable toISOString : Z -> str.
Variable JSON_parse : str -> result json.
Variable now : Z.

Lemma loadArticles_parsed (data : str) (l : list article) :
  JSON_parse data = Ok (JArray l) ->
  loadArticles Date_parse toISOString JSON_parse now (Ok data)
  = array_sort cmp l.
Proof.
  intro H. unfold loadArticles. cbn [bind]. rewrite H. reflexivity.
Qed.

(** The order where the comparator is consistent.  When every record of
    the parsed array has a
    valid sort date, the loaded collection is a rearrangement of the array
    in which no record is followed by a newer one; a record with neither
    timestamp is sorted as dated at the epoch. *)
Theorem loadArticles_newest_first (data : str) (l : list article) :
  JSON_parse data = Ok (JArray l) ->
  Forall (fun a => sort_date Date_parse a <> None) l ->
  let loaded :=
    loadArticles Date_parse toISOString JSON_parse now (Ok data) in
  Permutation l loaded
  /\ StronglySorted (no_older Date_parse) loaded
  /\ Forall (fun a => truthy (date a) = false ->
                      truthy (published_at a) = false ->
                      sort_date Date_parse a = Some 0%Z) loaded.
Proof.
  intros Hp Hl loaded. subst loaded. rewrite (loadArticles_parsed Hp).
  split; [apply array_sort_perm|]. split; [apply array_sort_sorted, Hl|].
  apply Forall_forall. intros a _. apply sort_date_undated.
Qed.

End LoadProperties.

Example sort_spec_example :
  array_sort (by_date_desc iso_Date_parse) [jan_2024; mar_2024; empty_article]
  = [mar_2024; jan_2024; empty_article].
Proof. reflexivity. Qed.

Lemma loadArticles_newest_first_witness :
  let l := [jan_2024; mar_2024; empty_article] in
  let loaded :=
    loadArticles iso_Date_parse decimal (JSON_parse_array l) 0 (Ok (lit "[]")) in
  Permutation l loaded
  /\ StronglySorted (no_older iso_Date_parse) loaded
  /\ Forall (fun a => truthy (date a) = false ->
                      truthy (published_at a) = false ->
                      sort_date iso_Date_parse a = Some 0%Z) loaded.
Proof.
  intro l.
  apply (@loadArticles_newest_first iso_Date_parse decimal
           (JSON_parse_array l) 0 (lit "[]") l).
  - reflexivity.
  - repeat constructor; discriminate.
Defined.

(** C6. The loaded collection is claimed, and said by the comment on the
    sort, to be newest-first.  For the array of 2024-01-01, an unparseable
    date and 2024-03-01 every comparison with the middle record is NaN, the
    array is left as it is, and the older record stays ahead of the newer
    one. *)
Lemma unparseable_date_breaks_order :
  let l := [jan_2024; dated (JStr (lit "not a date")); mar_2024] in
  loadArticles iso_Date_parse decimal (JSON_parse_array l) 0 (Ok (lit "[]")) = l
  /\ newest_first iso_Date_parse l = false
  /\ sort_date iso_Date_parse jan_2024 = Some 1704067200000%Z
  /\ sort_date iso_Date_parse mar_2024 = Some 1709251200000%Z.
Proof. repeat split. Qed.

(** A record older than the epoch is sorted after an undated one. *)
Example undated_is_not_oldest :
  array_sort (by_date_desc iso_Date_parse)
    [dated (JStr (lit "1969-07-20")); empty_article]
  = [empty_article; dated (JStr (lit "1969-07-20"))].
Proof. reflexivity. Qed.

(** ** The feed *)

Lemma map_result_ok (A B : Type) (f : A -> result B) (l : list A) :
  Forall (fun a => is_ok (f a) = true) l ->
  exists bs, map_result f l = Ok bs /\ Forall2 (fun a b => f a = Ok b) l bs.
Proof.
  induction 1 as [|a l Ha _ (bs & Hbs & Hall)].
  - exists []. split; [reflexivity | constructor].
  - destruct (f a) as [b|e] eqn:E; [|discriminate Ha].
    exists (b :: bs). split.
    + cbn [map_result bind]. rewrite E. cbn [bind]. rewrite Hbs. reflexivity.
    + constructor; assumption.
Qed.

Section FeedProperties.

Variable toLowerCase : str -> str.
Variable Date_parse : str -> option Z.
Variable toUTCString : Z -> str.
Variable Number_toString : Z -> str.
Variable now : Z.

Let item := feed_item toLowerCase Date_parse toUTCString Number_toString now.

(** The entries of the feed.  When each of the first 20 records renders,
    the feed is the head of the document, the texts [feed_item] gives for
    the first [min 20 n] records in collection order, and the tail: at most
    20 entries, and exactly 20 of 25 records. *)
Theorem getRSSFeed_first_twenty (articles : list article) :
  Forall (fun a => is_ok (item a) = true) (firstn 20 articles) ->
  exists items,
    getRSSFeed toLowerCase Date_parse toUTCString Number_toString now articles
    = Ok (feed_head Date_parse toUTCString now
            ++ List.concat items ++ feed_tail)
    /\ Forall2 (fun a text => item a = Ok text)
         (firstn (Nat.min 20 (List.length articles)) articles) items
    /\ List.length items = Nat.min 20 (List.length articles)
    /\ List.length items <= 20
    /\ (List.length articles = 25 -> List.length items = 20).
Proof.
  intro H. destruct (map_result_ok _ H) as (items & Hi & Hall).
  exists items.
  assert (Hlen : List.length items = Nat.min 20 (List.length articles)).
  { rewrite <- (Forall2_length Hall). apply length_firstn. }
  split; [|split; [|split; [exact Hlen | unfold str in *; lia]]].
  - unfold getRSSFeed, feed_items. fold item. rewrite Hi. cbn [bind].
    rewrite join_empty_concat. reflexivity.
  - replace (firstn (Nat.min 20 (List.length articles)) articles)
      with (firstn 20 articles); [exact Hall|].
    destruct (Nat.le_ge_cases 20 (List.length articles)) as [Hle | Hge].
    + rewrite Nat.min_l by assumption. reflexivity.
    + rewrite Nat.min_r by assumption.
      rewrite !firstn_all2 by lia. reflexivity.
Qed.

(** A record renders when the operand of its slug is a string and its
    excerpt is given. *)
Lemma feed_item_renders (a : article) (s e : str) :
  slug a = JStr s -> s <> [] -> excerpt a = JStr e -> e <> [] ->
  is_ok (item a) = true.
Proof.
  intros Hs Hne He Hee. subst item. unfold feed_item.
  rewrite (@getArticleSlug_of_slug toLowerCase a s Hne Hs). cbn [bind].
  unfold excerpt_or_extract. rewrite He.
  destruct e; [congruence|]. reflexivity.
Qed.

End FeedProperties.

Lemma getRSSFeed_first_twenty_witness :
  let articles := repeat (createSampleArticles decimal 0) 25 in
  exists items,
    getRSSFeed latin1_toLowerCase iso_Date_parse decimal decimal 0
      (List.concat articles)
    = Ok (feed_head iso_Date_parse decimal 0 ++ List.concat items ++ feed_tail)
    /\ Forall2 (fun a text =>
                  feed_item latin1_toLowerCase iso_Date_parse decimal decimal 0 a
                  = Ok text)
         (firstn (Nat.min 20 (List.length (List.concat articles)))
                 (List.concat articles)) items
    /\ List.length items = Nat.min 20 (List.length (List.concat articles))
    /\ List.length items <= 20
    /\ (List.length (List.concat articles) = 25 -> List.length items = 20).
Proof.
  intro articles.
  apply (@getRSSFeed_first_twenty latin1_toLowerCase iso_Date_parse decimal
           decimal 0 (List.concat articles)).
  subst articles.
  cbv [List.concat repeat app firstn createSampleArticles].
  repeat (apply Forall_cons; [vm_compute; reflexivity|]).
  apply Forall_nil.
Defined.

Example feed_of_25_has_20_items :
  match feed_items latin1_toLowerCase iso_Date_parse decimal decimal 0
          (List.concat (repeat (createSampleArticles decimal 0) 25)) with
  | Ok items => List.length items = 20
  | Throw _ => False
  end.
Proof. vm_compute. reflexivity. Qed.

Example feed_of_25_samples_has_20_elements :
  match getRSSFeed latin1_toLowerCase iso_Date_parse decimal decimal 0
          (List.concat (repeat (createSampleArticles decimal 0) 25)) with
  | Ok feed => count_items feed = 20
  | Throw _ => False
  end.
Proof. vm_compute. reflexivity. Qed.

(** C7. The feed is claimed to hold at most 20 item elements, exactly 20 for
    25 records.  For 25 records whose title closes its CDATA section, ends
    the item and opens another one, the 20 entries of the feed hold 40
    [<item>] elements outside every CDATA section; one such record alone
    gives 2. *)
Theorem splitting_titles_double_the_items :
  match getRSSFeed latin1_toLowerCase iso_Date_parse decimal decimal 0
          (repeat (titled splitting_title) 25),
        feed_items latin1_toLowerCase iso_Date_parse decimal decimal 0
          (repeat (titled splitting_title) 25) with
  | Ok feed, Ok entries => List.length entries = 20 /\ count_items feed = 40
  | _, _ => False
  end
  /\ match getRSSFeed latin1_toLowerCase iso_Date_parse decimal decimal 0
            [titled splitting_title] with
     | Ok feed => count_items feed = 2
     | Throw _ => False
     end.
Proof. split; vm_compute; repeat split. Qed.

(** *** CDATA sections *)

Lemma cut_at_intact (t rest : str) :
  includes (lit "]]>") t = false ->
  cut_at (lit "]]>") (t ++ lit "]]>" ++ rest) = Some (t, rest).
Proof.
  induction t as [|c t IH]; intro H.
  - reflexivity.
  - cbn [includes] in H. apply orb_false_iff in H. destruct H as [Hc Ht].
    change ((c :: t) ++ lit "]]>" ++ rest)
      with (c :: (t ++ lit "]]>" ++ rest)).
    cbn [cut_at].
    assert (Hs : starts_with (lit "]]>") (c :: t ++ lit "]]>" ++ rest) = false).
    { destruct t as [|d [|e t]].
      - cbn [app lit list_ascii_of_string starts_with].
        destruct (Ascii.eqb "]" c); reflexivity.
      - cbn [app lit list_ascii_of_string starts_with].
        destruct (Ascii.eqb "]" c), (Ascii.eqb "]" d); reflexivity.
      - exact Hc. }
    rewrite Hs, (IH Ht). reflexivity.
Qed.

(** A title free of [ ]]> ] is read back as it was written. *)
Lemma read_cdata_intact (t rest : str) :
  includes (lit "]]>") t = false ->
  read_cdata (lit "<![CDATA[" ++ t ++ lit "]]>" ++ rest) = Some (t, rest).
Proof.
  intro H. unfold read_cdata.
  rewrite starts_with_app.
  change (skipn 9 (lit "<![CDATA[" ++ t ++ lit "]]>" ++ rest))
    with (t ++ lit "]]>" ++ rest).
  apply cut_at_intact, H.
Qed.

(** C9. The title of a feed item is claimed to be wrapped so that no
    markup in it breaks the document.  For the title [a]]><b>] the CDATA
    section of the item ends after [a], and [<b>] is read as markup of the
    feed. *)
Theorem cdata_title_ends_early :
  exists item rest,
    feed_item latin1_toLowerCase iso_Date_parse decimal decimal 0
      (titled (lit "a]]><b>")) = Ok item
    /\ item_title_cdata item = Some (lit "a", rest)
    /\ starts_with (lit "<b>]]></title>") rest = true.
Proof. eexists _, _. repeat split. Qed.

Example cdata_title_intact :
  exists item rest,
    feed_item latin1_toLowerCase iso_Date_parse decimal decimal 0
      (titled (lit "Test")) = Ok item
    /\ item_title_cdata item = Some (lit "Test", rest)
    /\ starts_with (lit "</title>") rest = true.
Proof. eexists _, _. repeat split. Qed.

(** ** Loading and the build *)

Section BuildProperties.

Variable toLowerCase : str -> str.
Variable Date_parse : str -> option Z.
Variable toUTCString : Z -> str.
Variable toISOString : Z -> str.
Variable Number_toString : Z -> str.
Variable JSON_parse : str -> result json.
Variable now : Z.
Variable featured_template : article -> str -> option Z -> jsval -> str.
Variable card_template : article -> str -> option Z -> jsval -> str.
Variable home_template : str -> str -> bool -> str.
Variable page_template : article -> option Z -> jsval -> str -> str.
Variable getCSS : str.
Variable fs : file_system.

Lemma loadArticles_malformed (data : str) (e : error) :
  JSON_parse data = Throw e ->
  loadArticles Date_parse toISOString JSON_parse now (Ok data)
  = createSampleArticles toISOString now.
Proof. intro H. unfold loadArticles. cbn [bind]. rewrite H. reflexivity. Qed.

(** C1, as the code has it.  When [JSON.parse] throws on the text of
    [articles.json], [loadArticles] catches the exception and answers the
    built-in sample article; with the output directory writable the build
    goes on and succeeds. *)
Theorem malformed_json_builds_sample (data : str) (e : error) :
  articles_json fs = Ok data ->
  JSON_parse data = Throw e ->
  can_mkdir fs = true ->
  (forall path, can_write fs path = true) ->
  loadArticles Date_parse toISOString JSON_parse now (articles_json fs)
  = createSampleArticles toISOString now
  /\ exists files,
       build toLowerCase Date_parse toUTCString toISOString Number_toString
         JSON_parse now featured_template card_template home_template
         page_template getCSS fs = Succeeded files
       /\ build_from toLowerCase Date_parse toUTCString Number_toString now
            featured_template card_template home_template page_template
            getCSS fs (createSampleArticles toISOString now) = Ok files.
Proof.
  intros Hf Hp Hm Hw. rewrite Hf.
  rewrite (loadArticles_malformed Hp). split; [reflexivity|].
  unfold build. rewrite Hf, (loadArticles_malformed Hp).
  unfold createDist. rewrite Hm. cbn [bind].
  unfold build_from, copyAssets, generateHomePage, generateArticlePages,
    generateRSSFeed, writeFile.
  cbn [createSampleArticles map_result bind getHomePageHTML
       getArticlePageHTML getRSSFeed feed_items firstn feed_item
       getArticleSlug js_or truthy slug id title excerpt content
       excerpt_or_extract formatContent negb lit list_ascii_of_string
       includes starts_with orb andb tl List.length].
  rewrite !Hw. cbn [bind try_catch].
  eexists. split; reflexivity.
Qed.

End BuildProperties.

Lemma malformed_json_builds_sample_witness :
  loadArticles iso_Date_parse decimal JSON_parse_malformed 0
    (articles_json (writable_fs (lit "{")))
  = createSampleArticles decimal 0
  /\ exists files,
       build latin1_toLowerCase iso_Date_parse decimal decimal decimal
         JSON_parse_malformed 0 slug_only slug_only sections_only body_only
         (lit "") (writable_fs (lit "{")) = Succeeded files
       /\ build_from latin1_toLowerCase iso_Date_parse decimal decimal 0
            slug_only slug_only sections_only body_only (lit "")
            (writable_fs (lit "{")) (createSampleArticles decimal 0) = Ok files.
Proof.
  apply (@malformed_json_builds_sample latin1_toLowerCase iso_Date_parse
           decimal decimal decimal JSON_parse_malformed 0 slug_only slug_only
           sections_only body_only (lit "") (writable_fs (lit "{"))
           (lit "{") SyntaxError).
  - reflexivity.
  - reflexivity.
  - reflexivity.
  - intro path. reflexivity.
Defined.

(** C1, as stated, fails: with [articles.json] holding the text [{], on
    which [JSON.parse] throws, the build does not abort; it writes the
    stylesheet, the home page, the page of the sample article and the
    feed. *)
Lemma malformed_json_is_not_fatal :
  JSON_parse_malformed (lit "{") = Throw SyntaxError
  /\ match build latin1_toLowerCase iso_Date_parse decimal decimal decimal
             JSON_parse_malformed 0 slug_only slug_only sections_only
             body_only (lit "") (writable_fs (lit "{")) with
     | Succeeded files =>
         map output_path files =
         [ lit "dist/styles.css"; lit "dist/index.html";
           lit "dist/articles/sample-article.html"; lit "dist/feed.xml" ]
     | Failed _ => False
     end.
Proof. split; [reflexivity|]. vm_compute. reflexivity. Qed.

(** A missing [articles.json] and a value that is not an array are
    recovered the same way. *)
Example loadArticles_missing_file :
  loadArticles iso_Date_parse decimal JSON_parse_malformed 0 (Throw SystemError)
  = createSampleArticles decimal 0.
Proof. reflexivity. Qed.

Example loadArticles_not_array :
  loadArticles iso_Date_parse decimal (fun _ => Ok JNotArray) 0 (Ok (lit "{}"))
  = createSampleArticles decimal 0.
Proof. reflexivity. Qed.

(** A record whose [id] is a number makes [getArticleSlug] throw, and the
    build fail. *)
Example numeric_id_throws :
  getArticleSlug latin1_toLowerCase
    (mkArticle JUndefined (JNum 7) (JStr (lit "Seven")) JUndefined JUndefined
       JUndefined JUndefined JUndefined JUndefined)
  = Throw TypeError.
Proof. reflexivity. Qed.

(* ================================================================== *)
(** * Further properties of the builder *)

(** ** Slugs: operand, alphabet, stability *)

Section SlugOperand.

Variable toLowerCase : str -> str.

Lemma js_or_l (x y : jsval) : truthy x = true -> js_or x y = x.
Proof. intro H. unfold js_or. rewrite H. reflexivity. Qed.

Lemma js_or_r (x y : jsval) : truthy x = false -> js_or x y = y.
Proof. intro H. unfold js_or. rewrite H. reflexivity. Qed.

Lemma getArticleSlug_operand (a : article) :
  getArticleSlug toLowerCase a =
  match first_truthy [slug a; id a; title a] with
  | Some (JStr s) => Ok (normalize (toLowerCase s))
  | Some _ => Throw TypeError
  | None => Ok (normalize (toLowerCase placeholder))
  end.
Proof.
  unfold getArticleSlug, first_truthy. cbn [find].
  destruct (truthy (slug a)) eqn:E1.
  - rewrite !(@js_or_l _ _ E1). destruct (slug a); reflexivity.
  - rewrite (@js_or_r _ _ E1). destruct (truthy (id a)) eqn:E2.
    + rewrite !(@js_or_l _ _ E2). destruct (id a); reflexivity.
    + rewrite (@js_or_r _ _ E2). destruct (truthy (title a)) eqn:E3.
      * rewrite (@js_or_l _ _ E3). destruct (title a); reflexivity.
      * rewrite (@js_or_r _ _ E3). reflexivity.
Qed.

(** X1. Whatever [toLowerCase] does, a slug that [getArticleSlug] returns
    is empty or matches [[a-z0-9]+(-[a-z0-9]+)*], and consists of lower-case
    letters, digits and hyphens only: it holds no dot, slash or backslash,
    so that [articles/<slug>.html] stays inside the articles directory. *)
Theorem getArticleSlug_alphabet (a : article) (s : str) :
  getArticleSlug toLowerCase a = Ok s ->
  (s = [] \/ slug_pattern s)
  /\ Forall (fun c => slug_char c = true) s
  /\ ~ In (ch "/") s /\ ~ In (ch ".") s /\ ~ In (ch "\") s.
Proof.
  intro H.
  assert (Hs : s = [] \/ slug_pattern s).
  { revert H. unfold getArticleSlug. destruct (js_or _ _); try discriminate.
    intro H. injection H as <-. apply normalized_shape. }
  assert (Hc : Forall (fun c => slug_char c = true) s).
  { destruct Hs as [-> | Hs]; [constructor | apply slug_pattern_chars, Hs]. }
  split; [exact Hs|]. split; [exact Hc|].
  rewrite Forall_forall in Hc.
  repeat split; intro Hin; apply Hc in Hin; discriminate Hin.
Qed.

(** X2. The slug depends on the first truthy one of [slug], [id] and
    [title] only: two records that agree on it get the same slug or both
    make [getArticleSlug] throw. *)
Theorem getArticleSlug_priority (a b : article) :
  first_truthy [slug a; id a; title a] = first_truthy [slug b; id b; title b] ->
  getArticleSlug toLowerCase a = getArticleSlug toLowerCase b.
Proof. intro H. rewrite !getArticleSlug_operand, H. reflexivity. Qed.

(** X3. [getArticleSlug] throws a [TypeError] exactly when the first truthy
    one of [slug], [id] and [title] is not a string (a non-zero number or
    [true]); with no truthy field it answers for the placeholder. *)
Theorem getArticleSlug_throws_iff (a : article) :
  (getArticleSlug toLowerCase a = Throw TypeError <->
   exists v, first_truthy [slug a; id a; title a] = Some v
             /\ is_string v = false)
  /\ (first_truthy [slug a; id a; title a] = None ->
      getArticleSlug toLowerCase a = Ok (normalize (toLowerCase placeholder))).
Proof.
  rewrite getArticleSlug_operand.
  destruct (first_truthy [slug a; id a; title a]) as [v|].
  - split; [|discriminate].
    destruct v; split;
      try (intros _; eexists; split; [reflexivity | reflexivity]);
      try (intros _; reflexivity);
      try discriminate.
    intros (v & Hv & Hs). injection Hv as <-. discriminate Hs.
  - split; [|reflexivity]. split; [discriminate|].
    intros (v & Hv & _). discriminate Hv.
Qed.

(** X4. With a [toLowerCase] that leaves lower-case letters, digits and
    hyphens alone, a non-empty slug once derived is a fixed point: every
    record whose first truthy field among [slug], [id] and [title] is that
    slug gets it again. *)
Theorem getArticleSlug_fixed_point (a b : article) (s : str) :
  (forall t, Forall (fun c => slug_char c = true) t -> toLowerCase t = t) ->
  getArticleSlug toLowerCase a = Ok s ->
  s <> [] ->
  first_truthy [slug b; id b; title b] = Some (JStr s) ->
  getArticleSlug toLowerCase b = Ok s.
Proof.
  intros Hlow Ha Hne Hb.
  assert (Hs : slug_pattern s).
  { revert Ha. unfold getArticleSlug. destruct (js_or _ _); try discriminate.
    intro H. injection H as <-.
    destruct (normalized_shape (toLowerCase s0)) as [E | Hp];
      [exfalso; apply Hne; exact E | exact Hp]. }
  rewrite getArticleSlug_operand, Hb.
  rewrite Hlow by (apply slug_pattern_chars, Hs).
  unfold normalize. rewrite normalized_slug by exact Hs. reflexivity.
Qed.

End SlugOperand.

Lemma getArticleSlug_alphabet_witness :
  (lit "hello-world" = [] \/ slug_pattern (lit "hello-world"))
  /\ Forall (fun c => slug_char c = true) (lit "hello-world")
  /\ ~ In (ch "/") (lit "hello-world") /\ ~ In (ch ".") (lit "hello-world")
  /\ ~ In (ch "\") (lit "hello-world").
Proof.
  apply (@getArticleSlug_alphabet latin1_toLowerCase
           (titled (lit "Hello, World!")) (lit "hello-world")).
  reflexivity.
Defined.

Lemma getArticleSlug_priority_witness :
  getArticleSlug latin1_toLowerCase
    (mkArticle (JStr (lit "My Post")) (JNum 7) (JStr (lit "Other"))
       JUndefined JUndefined JUndefined JUndefined JUndefined JUndefined)
  = getArticleSlug latin1_toLowerCase (slugged (lit "My Post")).
Proof.
  apply (@getArticleSlug_priority latin1_toLowerCase
           (mkArticle (JStr (lit "My Post")) (JNum 7) (JStr (lit "Other"))
              JUndefined JUndefined JUndefined JUndefined JUndefined JUndefined)
           (slugged (lit "My Post"))).
  reflexivity.
Defined.

Lemma getArticleSlug_fixed_point_witness :
  getArticleSlug latin1_toLowerCase
    (mkArticle (JStr (lit "")) (JStr (lit "hello-world")) (JStr (lit "Other"))
       JUndefined JUndefined JUndefined JUndefined JUndefined JUndefined)
  = Ok (lit "hello-world").
Proof.
  apply (@getArticleSlug_fixed_point latin1_toLowerCase
           (titled (lit "Hello, World!"))
           (mkArticle (JStr (lit "")) (JStr (lit "hello-world"))
              (JStr (lit "Other"))
              JUndefined JUndefined JUndefined JUndefined JUndefined JUndefined)
           (lit "hello-world")).
  - exact latin1_toLowerCase_slug_chars.
  - reflexivity.
  - discriminate.
  - reflexivity.
Defined.

(** ** Excerpts: what tag stripping leaves *)

Lemma replace_tag_strip (s : str) :
  replace_all re_tag (lit "") s = strip_tags s.
Proof.
  unfold replace_all, strip_tags. destruct s as [|c s]; [reflexivity|].
  rewrite !strip_tags_cons. reflexivity.
Qed.

Lemma strip_tags_step (c : ascii) (s : str) :
  strip_tags (c :: s) =
  if Ascii.eqb (ch "<") c
  then match drop_while (not_class (is_char (ch ">"))) s with
       | _ :: rest => strip_tags rest
       | [] => c :: strip_tags s
       end
  else c :: strip_tags s.
Proof. apply strip_tags_cons. Qed.

Lemma drop_while_suffix (p : ascii -> bool) (s : str) :
  exists w, s = w ++ drop_while p s /\ Forall (fun c => p c = true) w.
Proof.
  induction s as [|c s (w & Hs & Hw)].
  - exists []. split; [reflexivity | constructor].
  - cbn [drop_while]. destruct (p c) eqn:E.
    + exists (c :: w). split; [cbn; f_equal; exact Hs|].
      constructor; assumption.
    + exists []. split; [reflexivity | constructor].
Qed.

(** Stripping invents no code unit. *)
Lemma strip_tags_incl (n : nat) (s : str) (x : ascii) :
  List.length s <= n -> In x (strip_tags s) -> In x s.
Proof.
  revert s. induction n as [|n IH]; intros s Hn Hx.
  - destruct s; [exact Hx | simpl in Hn; lia].
  - destruct s as [|c s]; [exact Hx|]. simpl in Hn.
    rewrite strip_tags_step in Hx.
    destruct (Ascii.eqb (ch "<") c).
    + destruct (drop_while_suffix (not_class (is_char (ch ">"))) s)
        as (w & Hs & _).
      pose proof (drop_while_length (not_class (is_char (ch ">"))) s) as Hl.
      destruct (drop_while (not_class (is_char (ch ">"))) s) as [|d rest].
      * destruct Hx as [-> | Hx]; [left; reflexivity|].
        right. apply IH; [lia | exact Hx].
      * right. rewrite Hs. apply in_or_app. right. right.
        apply IH; [simpl in Hl; lia | exact Hx].
    + destruct Hx as [-> | Hx]; [left; reflexivity|].
      right. apply IH; [lia | exact Hx].
Qed.

Lemma has_tag_no_gt (s : str) :
  existsb (Ascii.eqb (ch ">")) s = false -> has_tag s = false.
Proof.
  induction s as [|c s IH]; [reflexivity|].
  cbn [existsb has_tag]. intro H. apply orb_false_iff in H.
  destruct H as [_ H]. rewrite H, (IH H), andb_false_r. reflexivity.
Qed.

Lemma strip_tags_no_tag (n : nat) (s : str) :
  List.length s <= n -> has_tag (strip_tags s) = false.
Proof.
  revert s. induction n as [|n IH]; intros s Hn.
  - destruct s; [reflexivity | simpl in Hn; lia].
  - destruct s as [|c s]; [reflexivity|]. simpl in Hn.
    rewrite strip_tags_step.
    destruct (Ascii.eqb (ch "<") c) eqn:Ec.
    + destruct (drop_while_suffix (not_class (is_char (ch ">"))) s)
        as (w & Hs & Hw).
      pose proof (drop_while_length (not_class (is_char (ch ">"))) s) as Hl.
      destruct (drop_while (not_class (is_char (ch ">"))) s) as [|d rest].
      * apply has_tag_no_gt.
        destruct (existsb (Ascii.eqb (ch ">")) (c :: strip_tags s)) eqn:E;
          [|reflexivity].
        apply existsb_exists in E. destruct E as (x & Hx & Ex).
        apply Ascii.eqb_eq in Ex. subst x.
        assert (Hin : In (ch ">") (c :: s)).
        { destruct Hx as [Hx | Hx]; [left; exact Hx|].
          right. apply (@strip_tags_incl (List.length s) s); [lia | exact Hx]. }
        destruct Hin as [-> | Hin]; [discriminate Ec|].
        rewrite Hs, app_nil_r in Hin. rewrite Forall_forall in Hw.
        specialize (Hw _ Hin). discriminate Hw.
      * apply IH. simpl in Hl. lia.
    + cbn [has_tag]. rewrite Ec. cbn [andb orb]. apply IH. lia.
Qed.

Lemma has_tag_app_false (x y : str) :
  has_tag (x ++ y) = false -> has_tag x = false /\ has_tag y = false.
Proof.
  induction x as [|c x IH]; intro H; [split; [reflexivity | exact H]|].
  cbn [app has_tag] in H. apply orb_false_iff in H. destruct H as [H1 H2].
  destruct (IH H2) as [Hx Hy]. split; [|exact Hy].
  cbn [has_tag]. rewrite Hx, orb_false_r.
  rewrite existsb_app in H1.
  destruct (Ascii.eqb (ch "<") c); [|reflexivity].
  cbn [andb] in *. apply orb_false_iff in H1. apply H1.
Qed.

Lemma has_tag_app_plain (x y : str) :
  has_tag x = false -> existsb (Ascii.eqb (ch ">")) y = false ->
  has_tag (x ++ y) = false.
Proof.
  intros Hx Hy. induction x as [|c x IH]; [apply has_tag_no_gt, Hy|].
  cbn [has_tag] in Hx. apply orb_false_iff in Hx. destruct Hx as [H1 H2].
  cbn [app has_tag]. rewrite (IH H2), orb_false_r, existsb_app, Hy, orb_false_r.
  exact H1.
Qed.

(** X5. The excerpt of a content string, of whatever length, holds no
    complete tag: no [<] of it is followed by a [>].  What the lenient
    pattern leaves behind is unmatched brackets only. *)
Theorem extractExcerpt_no_tag (c : str) (len : nat) :
  exists e,
    extractExcerpt (JStr c) len = Ok e
    /\ has_tag (stripped_text c) = false
    /\ has_tag e = false.
Proof.
  rewrite extractExcerpt_string.
  assert (Ht : has_tag (stripped_text c) = false).
  { unfold stripped_text. rewrite replace_tag_strip.
    destruct (trim_spec (strip_tags c)) as (l & r & Hs & _).
    pose proof (@strip_tags_no_tag (List.length c) c (le_n _)) as Hn.
    rewrite Hs in Hn. apply has_tag_app_false in Hn. destruct Hn as [_ Hn].
    apply has_tag_app_false in Hn. apply Hn. }
  eexists. split; [reflexivity|]. split; [exact Ht|].
  destruct (len <? List.length (stripped_text c)); [|exact Ht].
  apply has_tag_app_plain; [|reflexivity].
  unfold substring0.
  rewrite <- (firstn_skipn len (stripped_text c)) in Ht.
  apply has_tag_app_false in Ht. apply Ht.
Qed.

Lemma includes_single (x : ascii) (s : str) :
  includes [x] s = existsb (Ascii.eqb x) s.
Proof.
  induction s as [|c s IH]; [reflexivity|].
  cbn [includes starts_with existsb]. rewrite IH, andb_true_r. reflexivity.
Qed.

Lemma strip_tags_plain (s : str) :
  existsb (Ascii.eqb (ch "<")) s = false -> strip_tags s = s.
Proof.
  induction s as [|c s IH]; [reflexivity|].
  cbn [existsb]. intro H. apply orb_false_iff in H. destruct H as [Hc Hs].
  rewrite strip_tags_step, Hc, (IH Hs). reflexivity.
Qed.

(** X6. Content without a [<] is only trimmed and cut: its excerpt is the
    trimmed content, or the first [len] code units of the trimmed content
    followed by the ellipsis. *)
Theorem extractExcerpt_plain (c : str) (len : nat) :
  includes (lit "<") c = false ->
  extractExcerpt (JStr c) len =
  Ok (if len <? List.length (trim c)
      then firstn len (trim c) ++ ellipsis
      else trim c).
Proof.
  intro H. change (lit "<") with [ch "<"] in H. rewrite includes_single in H.
  rewrite extractExcerpt_string. unfold stripped_text.
  rewrite replace_tag_strip, (strip_tags_plain _ H). reflexivity.
Qed.

Lemma extractExcerpt_plain_witness :
  extractExcerpt (JStr (lit "  3 > 2 is true  ")) 5 =
  Ok (if 5 <? List.length (trim (lit "  3 > 2 is true  "))
      then firstn 5 (trim (lit "  3 > 2 is true  ")) ++ ellipsis
      else trim (lit "  3 > 2 is true  ")).
Proof.
  apply (@extractExcerpt_plain (lit "  3 > 2 is true  ") 5). reflexivity.
Defined.

(** ** Formatting, then stripping *)

Lemma trim_start_forall (P : ascii -> Prop) (s : str) :
  Forall P s -> Forall P (trim_start s).
Proof.
  induction 1 as [|c s Hc Hs IH]; [constructor|].
  cbn [trim_start]. destruct (is_white c); [exact IH|].
  constructor; assumption.
Qed.

Lemma trim_forall (P : ascii -> Prop) (s : str) :
  Forall P s -> Forall P (trim s).
Proof.
  intro H. unfold trim, trim_end.
  apply Forall_rev, trim_start_forall, Forall_rev, trim_start_forall, H.
Qed.

Lemma split_go_forall (P : ascii -> Prop) (sep : str) (k : nat) (cur s : str) :
  Forall P cur -> Forall P s -> Forall (Forall P) (split_go sep k cur s).
Proof.
  intros Hcur Hs. revert k cur Hcur.
  induction Hs as [|c s Hc Hs IH]; intros k cur Hcur.
  - constructor; [apply Forall_rev, Hcur | constructor].
  - cbn [split_go]. destruct k as [|k]; [|apply IH, Hcur].
    destruct (starts_with sep (c :: s)).
    + constructor; [apply Forall_rev, Hcur | apply IH; constructor].
    + apply IH. constructor; assumption.
Qed.

Lemma strip_tags_plain_app (t y : str) :
  Forall (fun c => Ascii.eqb (ch "<") c = false) t ->
  strip_tags (t ++ y) = t ++ strip_tags y.
Proof.
  induction 1 as [|c t Hc _ IH]; [reflexivity|].
  change ((c :: t) ++ y) with (c :: (t ++ y)).
  rewrite strip_tags_step, Hc, IH. reflexivity.
Qed.

Lemma strip_tags_paragraph (t y : str) :
  Forall (fun c => Ascii.eqb (ch "<") c = false) t ->
  strip_tags (lit "<p>" ++ t ++ lit "</p>" ++ y) = t ++ strip_tags y.
Proof.
  intro H.
  change (lit "<p>" ++ t ++ lit "</p>" ++ y)
    with (ch "<" :: ch "p" :: ch ">" :: (t ++ lit "</p>" ++ y)).
  rewrite strip_tags_step.
  change (strip_tags (t ++ lit "</p>" ++ y) = t ++ strip_tags y).
  rewrite strip_tags_plain_app by exact H.
  change (lit "</p>" ++ y) with (ch "<" :: ch "/" :: ch "p" :: ch ">" :: y).
  rewrite strip_tags_step. reflexivity.
Qed.

Lemma strip_tags_paragraphs (pieces : list str) :
  Forall (Forall (fun c => Ascii.eqb (ch "<") c = false)) pieces ->
  strip_tags (List.concat (map paragraph pieces))
  = List.concat (map trim pieces).
Proof.
  induction 1 as [|p pieces Hp _ IH]; [reflexivity|].
  cbn [map List.concat]. unfold paragraph at 1.
  rewrite <- !app_assoc.
  rewrite strip_tags_paragraph by (apply trim_forall, Hp).
  rewrite IH. reflexivity.
Qed.

(** X7. Tag stripping undoes paragraph wrapping: for content without a
    [<], removing the tags from what [formatContent] returns gives the
    trimmed pieces of the content, one after the other. *)
Theorem formatContent_then_strip (c : str) :
  includes (lit "<") c = false ->
  exists r,
    formatContent (JStr c) = Ok r
    /\ replace_all re_tag (lit "") r
       = List.concat (map trim (split blank_line c)).
Proof.
  intro H.
  assert (Hc : Forall (fun x => Ascii.eqb (ch "<") x = false) c).
  { change (lit "<") with [ch "<"] in H. rewrite includes_single in H.
    apply Forall_forall. intros x Hx.
    destruct (Ascii.eqb (ch "<") x) eqn:E; [|reflexivity].
    rewrite <- H. symmetry. apply existsb_exists. exists x. split; assumption. }
  destruct c as [|d c].
  - exists []. split; reflexivity.
  - exists (List.concat (map paragraph (split blank_line (d :: c)))). split.
    + unfold formatContent. cbn [truthy negb]. rewrite H. cbn [negb].
      rewrite join_empty_concat. reflexivity.
    + rewrite replace_tag_strip. apply strip_tags_paragraphs.
      unfold split. apply split_go_forall; [constructor | exact Hc].
Qed.

Lemma formatContent_then_strip_witness :
  exists r,
    formatContent (JStr (lit " one

 two > 1 ")) = Ok r
    /\ replace_all re_tag (lit "") r
       = List.concat (map trim (split blank_line (lit " one

 two > 1 "))).
Proof.
  apply (@formatContent_then_strip (lit " one

 two > 1 ")). reflexivity.
Defined.

(** ** Loading: rearrangement, ties, sorted input *)

Section LoadFurther.

Variable Date_parse : str -> option Z.
Variable toISOString : Z -> str.
Variable JSON_parse : str -> result json.
Variable now : Z.

Let cmp := by_date_desc Date_parse.
Let load := loadArticles Date_parse toISOString JSON_parse now.

(** X8. [loadArticles] answers the sample article or a rearrangement of
    the parsed array: whatever the dates, valid or not, no record is lost
    or repeated. *)
Theorem loadArticles_rearranges (file : result str) :
  load file = createSampleArticles toISOString now
  \/ exists data l,
       file = Ok data /\ JSON_parse data = Ok (JArray l)
       /\ Permutation l (load file).
Proof.
  subst load. unfold loadArticles.
  destruct file as [data|e]; [|left; reflexivity].
  cbn [bind]. destruct (JSON_parse data) as [[l|]|e] eqn:E;
    [|left; reflexivity|left; reflexivity].
  right. exists data, l. split; [reflexivity|]. split; [exact E|].
  cbn [bind sort_articles try_catch]. apply array_sort_perm.
Qed.

Lemma sorts_after_not_tie (k : Z) (x y : article) :
  sorts_after cmp x y = true ->
  dated_at Date_parse k x && dated_at Date_parse k y = false.
Proof.
  unfold sorts_after, cmp, by_date_desc, date_minus, dated_at.
  destruct (sort_date Date_parse y) as [ty|];
    destruct (sort_date Date_parse x) as [tx|];
    try discriminate; try (intros _; apply andb_false_r); try reflexivity.
  intro H. apply Z.ltb_lt in H.
  destruct (tx =? k)%Z eqn:Ex; [|reflexivity].
  destruct (ty =? k)%Z eqn:Ey; [|reflexivity].
  apply Z.eqb_eq in Ex, Ey. lia.
Qed.

Lemma filter_sort_insert (k : Z) (x : article) (l : list article) :
  filter (dated_at Date_parse k) (sort_insert cmp x l)
  = filter (dated_at Date_parse k) (x :: l).
Proof.
  induction l as [|y l IH]; [reflexivity|].
  cbn [sort_insert]. destruct (sorts_after cmp x y) eqn:E; [|reflexivity].
  pose proof (sorts_after_not_tie k _ _ E) as Ht.
  cbn [filter] in *. rewrite IH.
  destruct (dated_at Date_parse k x), (dated_at Date_parse k y);
    try reflexivity. discriminate Ht.
Qed.

Lemma filter_array_sort (k : Z) (l : list article) :
  filter (dated_at Date_parse k) (array_sort cmp l)
  = filter (dated_at Date_parse k) l.
Proof.
  induction l as [|x l IH]; [reflexivity|].
  cbn [array_sort]. rewrite filter_sort_insert. cbn [filter].
  rewrite IH. reflexivity.
Qed.

(** X9. Ties keep the order of the file: when every record of the parsed
    array has a valid sort date, the records that carry one and the same
    date come out of [loadArticles] in the order in which they were
    read. *)
Theorem loadArticles_stable (data : str) (l : list article) (k : Z) :
  JSON_parse data = Ok (JArray l) ->
  Forall (fun a => sort_date Date_parse a <> None) l ->
  filter (dated_at Date_parse k) (load (Ok data))
  = filter (dated_at Date_parse k) l.
Proof.
  intros H _. subst load.
  rewrite (@loadArticles_parsed Date_parse toISOString JSON_parse now data l H).
  apply filter_array_sort.
Qed.

Lemma array_sort_sorted_id (l : list article) :
  StronglySorted (no_older Date_parse) l -> array_sort cmp l = l.
Proof.
  induction 1 as [|x l Hs IH Hx]; [reflexivity|].
  cbn [array_sort]. rewrite IH.
  destruct l as [|y l]; [reflexivity|].
  cbn [sort_insert]. inversion Hx as [|? ? Hxy _]; subst.
  destruct Hxy as (tx & ty & Ex & Ey & Hle).
  unfold sorts_after, cmp, by_date_desc, date_minus. rewrite Ex, Ey.
  replace (0 <? ty - tx)%Z with false; [reflexivity|].
  symmetry. apply Z.ltb_ge. lia.
Qed.

(** X10. An array that is already newest-first, every record with a valid
    sort date, is loaded as it stands. *)
Theorem loadArticles_sorted_input (data : str) (l : list article) :
  JSON_parse data = Ok (JArray l) ->
  StronglySorted (no_older Date_parse) l ->
  load (Ok data) = l.
Proof.
  intros H Hs. subst load. rewrite (@loadArticles_parsed Date_parse toISOString JSON_parse now data l H).
  apply array_sort_sorted_id, Hs.
Qed.

(** X11. The date shown and the date sorted by agree for a record with a
    truthy [date] or [published_at]; a record with neither is shown at the
    current time and sorted at the epoch. *)
Theorem shown_date_and_sort_date (a : article) :
  if truthy (date a) || truthy (published_at a)
  then article_date Date_parse now a = sort_date Date_parse a
  else article_date Date_parse now a = time_clip now
       /\ sort_date Date_parse a = Some 0%Z.
Proof.
  unfold article_date, sort_date.
  destruct (truthy (date a)) eqn:E1; cbn [orb].
  - rewrite !(@js_or_l _ _ E1). reflexivity.
  - rewrite !(@js_or_r _ _ E1).
    destruct (truthy (published_at a)) eqn:E2.
    + rewrite !(@js_or_l _ _ E2). reflexivity.
    + rewrite !(@js_or_r _ _ E2). split; reflexivity.
Qed.

End LoadFurther.

Lemma loadArticles_stable_witness :
  let a := mkArticle JUndefined JUndefined (JStr (lit "A")) JUndefined
             JUndefined JUndefined (JStr (lit "2024-01-01")) JUndefined
             JUndefined in
  let b := mkArticle JUndefined JUndefined (JStr (lit "B")) JUndefined
             JUndefined JUndefined JUndefined (JStr (lit "2024-01-01"))
             JUndefined in
  let l := [a; mar_2024; b] in
  filter (dated_at iso_Date_parse 1704067200000)
    (loadArticles iso_Date_parse decimal (JSON_parse_array l) 0 (Ok (lit "[]")))
  = filter (dated_at iso_Date_parse 1704067200000) l.
Proof.
  intros a b l.
  apply (@loadArticles_stable iso_Date_parse decimal (JSON_parse_array l) 0
           (lit "[]") l 1704067200000).
  - reflexivity.
  - repeat constructor; discriminate.
Defined.

Lemma loadArticles_sorted_input_witness :
  loadArticles iso_Date_parse decimal
    (JSON_parse_array [mar_2024; jan_2024; empty_article]) 0 (Ok (lit "[]"))
  = [mar_2024; jan_2024; empty_article].
Proof.
  apply (@loadArticles_sorted_input iso_Date_parse decimal
           (JSON_parse_array [mar_2024; jan_2024; empty_article]) 0
           (lit "[]") [mar_2024; jan_2024; empty_article]).
  - reflexivity.
  - repeat first
      [ apply SSorted_nil | apply SSorted_cons
      | apply Forall_nil | apply Forall_cons
      | (eexists _, _; split; [reflexivity|]; split; [reflexivity|];
         vm_compute; discriminate) ].
Defined.

(** ** The feed: reach of the cap, links, titles *)

Section FeedFurther.

Variable toLowerCase : str -> str.
Variable Date_parse : str -> option Z.
Variable toUTCString : Z -> str.
Variable Number_toString : Z -> str.
Variable now : Z.

Let item := feed_item toLowerCase Date_parse toUTCString Number_toString now.
Let feed := getRSSFeed toLowerCase Date_parse toUTCString Number_toString now.

Lemma feed_item_inv (a : article) (text : str) :
  item a = Ok text ->
  exists slug description,
    getArticleSlug toLowerCase a = Ok slug
    /\ excerpt_or_extract a = Ok description
    /\ text =
       lit "
        <item>
            <title><![CDATA[" ++ to_string Number_toString (title a)
         ++ lit "]]></title>
            <link>" ++ article_link slug ++ lit "</link>
            <description><![CDATA[" ++ to_string Number_toString description
         ++ lit "]]></description>
            <pubDate>"
         ++ Date_toUTCString toUTCString (article_date Date_parse now a)
         ++ lit "</pubDate>
            <guid>" ++ article_link slug ++ lit "</guid>
        </item>
      ".
Proof.
  subst item. unfold feed_item.
  destruct (getArticleSlug toLowerCase a) as [slug|e]; [|discriminate].
  cbn [bind]. destruct (excerpt_or_extract a) as [d|e]; [|discriminate].
  cbn [bind]. intro H. injection H as <-.
  exists slug, d. split; [reflexivity|]. split; [reflexivity|].
  unfold article_link. cbn [lit list_ascii_of_string app].
  rewrite <- !app_assoc. reflexivity.
Qed.

(** X12. Records past the twentieth have no part in the feed: appended to
    a collection of twenty or more, they change neither its text nor
    whether [getRSSFeed] throws. *)
Theorem getRSSFeed_ignores_tail (articles more : list article) :
  20 <= List.length articles ->
  feed (articles ++ more) = feed articles.
Proof.
  intro H. subst feed. unfold getRSSFeed, feed_items.
  rewrite firstn_app.
  replace (20 - List.length articles) with 0 by lia.
  cbn [firstn]. rewrite app_nil_r. reflexivity.
Qed.

(** X13. When the title is a string free of [ ]]> ], the first [ ]]> ]
    after the opening of the CDATA section of [<title>] is the one the
    template writes: the raw text of the section is the title, whatever
    other markup it holds, and [</title>] follows it. *)
Theorem feed_title_intact (a : article) (t text : str) :
  title a = JStr t ->
  includes (lit "]]>") t = false ->
  item a = Ok text ->
  exists rest,
    item_title_cdata text = Some (t, rest)
    /\ starts_with (lit "</title>") rest = true.
Proof.
  intros Ht Hfree Hitem.
  destruct (feed_item_inv _ Hitem) as (slug & d & _ & _ & ->).
  rewrite Ht. cbn [to_string].
  eexists. unfold item_title_cdata.
  cbn [lit list_ascii_of_string app cut_at starts_with Ascii.eqb Bool.eqb
       andb skipn List.length].
  split.
  - match goal with
    | |- read_cdata ?x = _ =>
        change x with (lit "<![CDATA[" ++ t ++ lit "]]>" ++
                       (lit "</title>
            <link>" ++ article_link slug ++ lit "</link>
            <description><![CDATA[" ++ to_string Number_toString d
         ++ lit "]]></description>
            <pubDate>"
         ++ Date_toUTCString toUTCString (article_date Date_parse now a)
         ++ lit "</pubDate>
            <guid>" ++ article_link slug ++ lit "</guid>
        </item>
      "))
    end.
    apply read_cdata_intact, Hfree.
  - reflexivity.
Qed.

End FeedFurther.

Lemma getRSSFeed_ignores_tail_witness :
  getRSSFeed latin1_toLowerCase iso_Date_parse decimal decimal 0
    (List.concat (repeat (createSampleArticles decimal 0) 20)
     ++ [mkArticle JUndefined (JNum 7) JUndefined JUndefined JUndefined
           JUndefined JUndefined JUndefined JUndefined])
  = getRSSFeed latin1_toLowerCase iso_Date_parse decimal decimal 0
      (List.concat (repeat (createSampleArticles decimal 0) 20)).
Proof.
  apply (@getRSSFeed_ignores_tail latin1_toLowerCase iso_Date_parse decimal
           decimal 0).
  vm_compute. repeat constructor.
Defined.

Lemma feed_title_intact_witness :
  exists rest,
    item_title_cdata
      (lit "
        <item>
            <title><![CDATA[<b>R&D</b> ]] >]]></title>
            <link>articles/b-r-d-b.html</link>
            <description><![CDATA[]]></description>
            <pubDate>0</pubDate>
            <guid>articles/b-r-d-b.html</guid>
        </item>
      ") = Some (lit "<b>R&D</b> ]] >", rest)
    /\ starts_with (lit "</title>") rest = true.
Proof.
  apply (@feed_title_intact latin1_toLowerCase iso_Date_parse decimal decimal 0
           (titled (lit "<b>R&D</b> ]] >")) (lit "<b>R&D</b> ]] >")).
  - reflexivity.
  - reflexivity.
  - reflexivity.
Defined.

(** ** The build: when it succeeds, and what it writes *)












Section BuildFurther.

Variable toLowerCase : str -> str.
Variable Date_parse : str -> option Z.
Variable toUTCString : Z -> str.
Variable toISOString : Z -> str.
Variable Number_toString : Z -> str.
Variable JSON_parse : str -> result json.
Variable now : Z.
Variable featured_template : article -> str -> option Z -> jsval -> str.
Variable card_template : article -> str -> option Z -> jsval -> str.
Variable home_template : str -> str -> bool -> str.
Variable page_template : article -> option Z -> jsval -> str -> str.
Variable getCSS : str.
Variable fs : file_system.

Let home := getHomePageHTML toLowerCase Date_parse now featured_template
              card_template home_template.
Let pages := generateArticlePages toLowerCase Date_parse now page_template fs.
Let feed := getRSSFeed toLowerCase Date_parse toUTCString Number_toString now.
Let run := build_from toLowerCase Date_parse toUTCString Number_toString now
             featured_template card_template home_template page_template
             getCSS fs.










(** X15. Of all that [copyAssets] does only the writing of the stylesheet
    can fail: a missing images directory or a copy that fails is passed
    over, and no more files are copied than the directory lists. *)
Theorem copyAssets_outcome :
  if can_write fs (path_join distDir (lit "styles.css"))
  then exists copies,
         copyAssets getCSS fs
         = Ok (Written (path_join distDir (lit "styles.css")) getCSS :: copies)
         /\ List.length copies
            <= match images_dir fs with
               | Ok images => List.length images
               | Throw _ => 0
               end
  else copyAssets getCSS fs = Throw SystemError.
Proof.
  unfold copyAssets, writeFile.
  destruct (can_write fs (path_join distDir (lit "styles.css")));
    [|reflexivity].
  cbn [bind]. eexists. split; [reflexivity|].
  destruct (images_dir fs) as [images|e]; cbn [bind try_catch]; [|apply le_n].
  induction images as [|[name ok] images IH]; [apply le_n|].
  cbn [copy_images]. destruct ok; cbn [List.length].
  - apply le_n_S, IH.
  - apply Nat.le_0_l.
Qed.


End BuildFurther.


Example build_fails_on_numeric_id :
  build latin1_toLowerCase iso_Date_parse decimal decimal decimal
    (JSON_parse_array
       [jan_2024;
        mkArticle JUndefined (JNum 7) (JStr (lit "Seven")) JUndefined
          JUndefined JUndefined JUndefined JUndefined JUndefined])
    0 slug_only slug_only sections_only body_only (lit "")
    (writable_fs (lit "[]"))
  = Failed TypeError.
Proof. vm_compute. reflexivity. Qed.


(** X18. Falsy content gives the empty string from [extractExcerpt] and
    from [formatContent] alike, a non-empty string is taken by both, and a
    non-zero number or [true] makes each of them throw a [TypeError]. *)
Theorem content_argument (v : jsval) (len : nat) :
  if number_or_true v
  then extractExcerpt v len = Throw TypeError
       /\ formatContent v = Throw TypeError
  else if truthy v
       then is_ok (extractExcerpt v len) = true
            /\ is_ok (formatContent v) = true
       else extractExcerpt v len = Ok (lit "")
            /\ formatContent v = Ok (lit "").
Proof.
  unfold extractExcerpt, formatContent.
  destruct v as [| |[|]|n|[|c s]]; cbn [number_or_true truthy negb];
    try (split; reflexivity).
  - destruct (n =? 0)%Z; cbn [negb]; split; reflexivity.
  - split; [reflexivity|].
    destruct (includes (lit "<") (c :: s)); reflexivity.
Qed.
